(** * Volatility estimators and the macro-event analyzer

    A shallow embedding of [EWMA.py] and [MacroEventAnalyzer.py].

    - Python / numpy floats are IEEE binary64 values: Rocq's primitive
      [float], with its single NaN standing for every missing-value marker.
    - A pandas [Series] is its index labels paired with its values; a
      [DataFrame] of prices is an index and named columns.
    - A Python exception is a constructor of [exn]; code that can raise
      returns a [result].
    - Library functions whose bits the source does not fix ([np.log], the
      summation order inside pandas, [pd.to_datetime]) are variables of the
      section: every theorem holds for whatever they compute. *)

From Stdlib Require Import ZArith Floats QArith Lia Ascii String.
From stdpp Require Import base option list strings sorting.

Set Warnings "-inexact-float".
Local Open Scope string_scope.
Local Open Scope list_scope.
Local Open Scope nat_scope.

(* ================================================================== *)
(** ** Exceptions and the error monad *)

Inductive exn : Type :=
  | KeyError (key : string)          (* a missing column or dict key *)
  | IndexError (msg : string)        (* positional access out of range *)
  | ValueError (msg : string)        (* math.sqrt domain, unparseable date *)
  | TypeError (msg : string)         (* an object of the wrong kind *)
  | OverflowError (msg : string)     (* datetime.timedelta out of its range *)
  | OutOfBoundsTimedelta (msg : string)
                                     (* a delta that does not fit pandas'
                                        64-bit count of nanoseconds *)
  | OutOfBoundsDatetime (msg : string)
                                     (* a date that does not fit it *)
  | InvalidParameterError.           (* named by the specification only;
                                        no function below constructs it *)

Inductive result (A : Type) : Type :=
  | Ok (a : A)
  | Err (e : exn).
Arguments Ok {A} a.
Arguments Err {A} e.

#[global] Instance result_ret : MRet result := λ A a, Ok a.
#[global] Instance result_bind : MBind result := λ A B f m,
  match m with
  | Ok a => f a
  | Err e => Err e
  end.

(** [for x in xs: s = body(s, x)], stopping at the first exception. *)
Fixpoint for_each {A S : Type} (body : S → A → result S) (xs : list A) (s : S)
  : result S :=
  match xs with
  | [] => Ok s
  | x :: xs' => s' ← body s x; for_each body xs' s'
  end.

(** [range(lo, hi)] *)
Definition range (lo hi : nat) : list nat := seq lo (hi - lo).

(* ================================================================== *)
(** ** Floats *)

(** [np.nan] *)
Definition NaN : float := nan.

(** [np.isnan] *)
Definition isnan (x : float) : bool := PrimFloat.is_nan x.

(** Python's [x != y] on floats: true when either side is NaN. *)
Definition float_ne (x y : float) : bool := negb (PrimFloat.eqb x y).

(** [math.sqrt]: raises [ValueError] below zero, maps NaN to NaN. *)
Definition math_sqrt (x : float) : result float :=
  if PrimFloat.ltb x 0%float then Err (ValueError "math domain error")
  else Ok (PrimFloat.sqrt x).

(** An integer (a count, a length) converted to a double; the counts met
    here are far below 2^63. *)
Definition float_of_Z (z : Z) : float :=
  match z with
  | Z0 => 0%float
  | Zpos _ => PrimFloat.of_uint63 (Uint63.of_Z z)
  | Zneg p => (- PrimFloat.of_uint63 (Uint63.of_Z (Zpos p)))%float
  end.

Definition float_of_nat (n : nat) : float := float_of_Z (Z.of_nat n).

(* ================================================================== *)
(** ** Series and price frames *)

(** Nanoseconds since the epoch, as pandas keeps a [Timestamp]: a signed
    64-bit count, whose least value is kept for [NaT]. *)
Abbreviation Timestamp := Z (only parsing).

Definition ns_per_day : Z := 86400000000000.

(** The largest magnitude of [days] that [datetime.timedelta] takes. *)
Definition timedelta_max_days : Z := 999999999.

Definition days_in_range (days : Z) : bool :=
  (- timedelta_max_days <=? days)%Z && (days <=? timedelta_max_days)%Z.

(** [datetime.timedelta(days=d)], in nanoseconds: [OverflowError] when the
    magnitude of [d] is above 999999999. *)
Definition timedelta (days : Z) : result Z :=
  if days_in_range days then Ok (days * ns_per_day)%Z
  else Err (OverflowError "days; must have magnitude <= 999999999").

(** What a pandas [Timestamp] or [Timedelta] can hold: [Timestamp.min.value]
    to [Timestamp.max.value]. *)
Definition ns_in_range (ns : Z) : bool :=
  (- 9223372036854775807 <=? ns)%Z && (ns <=? 9223372036854775807)%Z.

(** [ts + delta] and [ts - delta] for a [Timestamp] and a
    [datetime.timedelta]: pandas first turns the delta into a [Timedelta]
    of nanoseconds, then adds; it raises when the delta does not fit, and
    when the sum does not. Which exception class pandas uses for the two
    has changed between its versions; no property below depends on it. *)
Definition Timestamp_add (ts delta : Z) : result Timestamp :=
  if ns_in_range delta then
    if ns_in_range (ts + delta)%Z then Ok (ts + delta)%Z
    else Err (OutOfBoundsDatetime "Out of bounds nanosecond timestamp")
  else Err (OutOfBoundsTimedelta "Cannot cast to nanoseconds").

Definition Timestamp_sub (ts delta : Z) : result Timestamp :=
  if ns_in_range delta then
    if ns_in_range (ts - delta)%Z then Ok (ts - delta)%Z
    else Err (OutOfBoundsDatetime "Out of bounds nanosecond timestamp")
  else Err (OutOfBoundsTimedelta "Cannot cast to nanoseconds").

(** [event_date - timedelta(days=pre)] (line 90) *)
Definition window_start (event_date : Timestamp) (pre_window_days : Z)
  : result Timestamp :=
  delta ← timedelta pre_window_days; Timestamp_sub event_date delta.

(** [event_date + timedelta(days=post)] (line 91) *)
Definition window_end (event_date : Timestamp) (post_window_days : Z)
  : result Timestamp :=
  delta ← timedelta post_window_days; Timestamp_add event_date delta.

(** A Series: one (label, value) pair per position. *)
Abbreviation Series := (list (Timestamp * float)) (only parsing).

Record DataFrame : Type := mkDataFrame {
  df_index : list Timestamp;
  df_columns : list (string * list float)
}.

Fixpoint assoc {V : Type} (k : string) (kvs : list (string * V)) : option V :=
  match kvs with
  | [] => None
  | (k', v) :: rest => if decide (k = k') then Some v else assoc k rest
  end.

(** [df[col]]: [KeyError] when the column is absent. *)
Definition getitem (df : DataFrame) (col : string) : result Series :=
  match assoc col (df_columns df) with
  | Some vals => Ok (zip (df_index df) vals)
  | None => Err (KeyError col)
  end.

Definition values (s : Series) : list float := s.*2.

(** [len(s)] *)
Definition Series_len (s : Series) : nat := length s.

(** [s.shift(1)]: every value moves one position down, the first slot is NaN
    and the last value falls off; labels stay. *)
Definition shift (s : Series) : Series :=
  zip (s.*1) (take (length s) (NaN :: values s)).

(** [a / b] for two Series over the same index (position-wise). *)
Definition Series_div (a b : Series) : Series :=
  zip_with (λ x y, (x.1, (x.2 / y.2)%float)) a b.

(** [s.apply(f)], [np.log(s)], [np.sqrt(s)]: element-wise. *)
Definition Series_apply (f : float → float) (s : Series) : Series :=
  prod_map id f <$> s.

(** [s ** 2] *)
Definition Series_square (s : Series) : Series :=
  Series_apply (λ x, (x * x)%float) s.

(** [s * c] *)
Definition Series_scale (s : Series) (c : float) : Series :=
  Series_apply (λ x, (x * c)%float) s.

(** [s.dropna()] *)
Definition dropna (s : Series) : Series :=
  filter (λ p, isnan p.2 = false) s.

(** [s.copy()]: the same contents; the store model below gives the copy a
    cell of its own. *)
Definition Series_copy (s : Series) : Series := s.

(** [s.iloc[i]] for [i >= 0] *)
Definition iloc (s : Series) (i : nat) : result float :=
  match s !! i with
  | Some p => Ok p.2
  | None => Err (IndexError "single positional indexer is out-of-bounds")
  end.

(** [s.iloc[i] = v] for [i >= 0] *)
Definition iloc_set (s : Series) (i : nat) (v : float) : result Series :=
  match s !! i with
  | Some p => Ok (<[i := (p.1, v)]> s)
  | None => Err (IndexError "iloc cannot enlarge its target object")
  end.

(** [s[mask]] for a boolean array [mask]: the positions where it is true. *)
Fixpoint bool_index {A : Type} (mask : list bool) (s : list A) : list A :=
  match mask, s with
  | b :: mask', x :: s' =>
      if b then x :: bool_index mask' s' else bool_index mask' s'
  | _, _ => []
  end.

(* ================================================================== *)
(** ** EWMA.py *)

(** One pass of the loop body at position [i] (lines 39-41): both guards are
    read first, left to right with [and] short-circuiting, then the slot is
    overwritten. When a guard fails the slot keeps what the copy put there. *)
Definition ewma_step (lambda_param : float) (squared_returns : Series)
    (ewma_var : Series) (i : nat) : result Series :=
  prev_sq ← iloc squared_returns (i - 1);
  if isnan prev_sq then Ok ewma_var else
  prev_var ← iloc ewma_var (i - 1);
  if isnan prev_var then Ok ewma_var else
  cur_sq ← iloc squared_returns i;
  iloc_set ewma_var i
    (lambda_param * prev_var + (1 - lambda_param) * cur_sq)%float.

(** Lines 35-41: the copy, then the scan over [range(1, len)]. *)
Definition ewma_variance (lambda_param : float) (squared_returns : Series)
  : result Series :=
  for_each (ewma_step lambda_param squared_returns)
           (range 1 (Series_len squared_returns))
           (Series_copy squared_returns).

Section Estimator.

(** [np.log] on doubles. *)
Variable ln : float → float.

(** Line 29 *)
Definition log_returns_of (close : Series) : Series :=
  Series_apply ln (Series_div close (shift close)).

(** Line 32 *)
Definition squared_returns_of (close : Series) : Series :=
  Series_square (log_returns_of close).

Definition get_estimator (price_data : DataFrame) (lambda_param : float)
    (trading_periods : float) (clean : bool) : result Series :=
  close ← getitem price_data "Close";
  let squared_returns := squared_returns_of close in
  ewma_var ← ewma_variance lambda_param squared_returns;
  annualize ← math_sqrt trading_periods;
  let result := Series_scale (Series_apply PrimFloat.sqrt ewma_var) annualize in
  if clean then Ok (dropna result) else Ok result.

End Estimator.

(** The value the scan leaves in a slot whose predecessors hold [prev_sq]
    and [prev_var] and whose own squared return is [cur_sq]. *)
Definition ewma_slot (lambda_param prev_sq prev_var cur_sq : float) : float :=
  if isnan prev_sq || isnan prev_var then cur_sq
  else (lambda_param * prev_var + (1 - lambda_param) * cur_sq)%float.

(** What holds before the iteration at position [i]: the labels are those of
    the squared returns, the slots from [i] on still hold the copied squared
    return, and every slot between 1 and [i] obeys the step rule. *)
Record ewma_inv (lam : float) (sq var : Series) (i : nat) : Prop := {
  inv_labels : var.*1 = sq.*1;
  inv_rest : ∀ j, i ≤ j → var !! j = sq !! j;
  inv_head : var !! 0 = sq !! 0;
  inv_done : ∀ t ps pv cs, 1 ≤ t → t < i →
     values sq !! (t - 1) = Some ps → values var !! (t - 1) = Some pv →
     values sq !! t = Some cs →
     values var !! t = Some (ewma_slot lam ps pv cs)
}.

(* ================================================================== *)
(** ** MacroEventAnalyzer.py *)

Record MacroEventAnalyzer : Type := mkAnalyzer {
  price_data : DataFrame;
  volatility : Series
}.

(** An event is a dict with string values. *)
Abbreviation Event := (list (string * string)) (only parsing).

(** [d[k]] *)
Definition dict_getitem (d : Event) (k : string) : result string :=
  match assoc k d with
  | Some v => Ok v
  | None => Err (KeyError k)
  end.

(** [d.get(k, dflt)] *)
Definition dict_get (d : Event) (k dflt : string) : string :=
  default dflt (assoc k d).

(** One row of the frame [event_impact_analysis] builds (lines 99-109). *)
Record ImpactRecord : Type := mkImpact {
  event_date : Timestamp;
  event_name : string;
  event_type : string;
  pre_volatility : float;
  post_volatility : float;
  volatility_change : float;
  volatility_change_pct : float;
  pre_window_days : Z;
  post_window_days : Z
}.

(** A frame of impact records: the column labels it has, and its rows, each
    under the row label [pd.DataFrame] gave it. *)
Record ImpactFrame : Type := mkImpactFrame {
  if_columns : list string;
  if_rows : list (nat * ImpactRecord)
}.

Definition impact_columns : list string :=
  ["event_date"; "event_name"; "event_type"; "pre_volatility";
   "post_volatility"; "volatility_change"; "volatility_change_pct";
   "pre_window_days"; "post_window_days"].

(** [pd.DataFrame(results)] for a list of dicts that all have the keys of
    [impact_columns]: the columns are the keys met, so an empty list gives a
    frame with no column at all; rows are labelled 0, 1, 2, ... *)
Definition DataFrame_of_records (results : list ImpactRecord) : ImpactFrame :=
  {| if_columns := match results with [] => [] | _ :: _ => impact_columns end;
     if_rows := zip (seq 0 (length results)) results |}.

Definition date_le (a b : nat * ImpactRecord) : Prop :=
  (event_date a.2 ≤ event_date b.2)%Z.

#[global] Instance date_le_dec a b : Decision (date_le a b).
Proof. unfold date_le. apply _. Defined.

(** [df.sort_values('event_date')]: [KeyError] when the frame has no such
    column, otherwise the rows in ascending date order, each keeping its
    label. The order pandas leaves among equal dates is not fixed by the
    source; nothing below depends on it. *)
Definition sort_values_event_date (df : ImpactFrame) : result ImpactFrame :=
  if decide ("event_date" ∈ if_columns df)
  then Ok {| if_columns := if_columns df;
             if_rows := merge_sort date_le (if_rows df) |}
  else Err (KeyError "event_date").

(** [len(df)] *)
Definition ImpactFrame_len (df : ImpactFrame) : nat := length (if_rows df).

(** [df[col]] read through the field [proj] of each row *)
Definition impact_column {A : Type} (df : ImpactFrame) (col : string)
    (proj : ImpactRecord → A) : result (list A) :=
  if decide (col ∈ if_columns df)
  then Ok ((λ r, proj r.2) <$> if_rows df)
  else Err (KeyError col).

(** [Series.unique()]: the distinct values in order of first appearance. *)
Fixpoint unique_from (seen l : list string) : list string :=
  match l with
  | [] => []
  | x :: l' =>
      if decide (x ∈ seen) then unique_from seen l'
      else x :: unique_from (x :: seen) l'
  end.

Definition unique (l : list string) : list string := unique_from [] l.

(** The per-type entry of the summary dict (lines 132-139). The frequency is
    the quotient of two counts. It is kept as the exact fraction, and is
    [None] where numpy's [0 / 0] gives NaN; the rounding of the double
    division, which is monotone and leaves 0 and 1 fixed, is not modelled. *)
Record TypeSummary : Type := mkSummary {
  count : nat;
  avg_pre_vol : float;
  avg_post_vol : float;
  avg_vol_change : float;
  avg_vol_change_pct : float;
  vol_increase_frequency : option Q
}.

(** [d[k] = v] on an insertion-ordered dict *)
Fixpoint dict_set {V : Type} (d : list (string * V)) (k : string) (v : V)
  : list (string * V) :=
  match d with
  | [] => [(k, v)]
  | (k', v') :: rest =>
      if decide (k = k') then (k, v) :: rest else (k', v') :: dict_set rest k v
  end.

(** [(col > 0).sum()] *)
Definition count_positive (xs : list float) : nat :=
  length (filter (λ x, PrimFloat.ltb 0%float x = true) xs).

(** [k / n] for two counts *)
Definition count_ratio (k n : nat) : option Q :=
  match n with
  | O => None
  | S _ => Some (Z.of_nat k # Pos.of_nat n)
  end.

Definition notna (xs : list float) : list float :=
  filter (λ x, isnan x = false) xs.

(** [(t >= start_date) & (t <= end_date)] *)
Definition in_window (start_date end_date t : Timestamp) : bool :=
  (start_date <=? t)%Z && (t <=? end_date)%Z.

Section Analyzer.

(** [np.log] on doubles. *)
Variable ln : float → float.

(** The sum of a float array as pandas' reductions compute it; the order of
    the additions is the library's. *)
Variable fsum : list float → float.

(** [pd.to_datetime] on a string; [None] where it raises: on a string that
    is no date, and on a date outside the range of a [Timestamp]. *)
Variable to_datetime : string → option Timestamp.

Definition pd_to_datetime (s : string) : result Timestamp :=
  match to_datetime s with
  | Some t => Ok t
  | None => Err (ValueError "Unknown datetime string format")
  end.

(** The mean of an array; NaN when it is empty. *)
Definition mean_of (xs : list float) : float :=
  match xs with
  | [] => NaN
  | _ :: _ => (fsum xs / float_of_nat (length xs))%float
  end.

(** [Series.mean()], which skips NaN. *)
Definition Series_mean (xs : list float) : float := mean_of (notna xs).

(** [Series.std()]: the sample standard deviation ([ddof = 1]) of the
    values that are not NaN; NaN when fewer than two remain. *)
Definition Series_std (xs : list float) : float :=
  let ys := notna xs in
  let n := length ys in
  if n <=? 1 then NaN else
  let avg := (fsum ys / float_of_nat n)%float in
  let sqr := fsum ((λ y, ((avg - y) * (avg - y))%float) <$> ys) in
  PrimFloat.sqrt (sqr / float_of_nat (n - 1)).

Definition calculate_log_returns (self : MacroEventAnalyzer) : result Series :=
  close ← getitem (price_data self) "Close";
  Ok (Series_apply ln (Series_div close (shift close))).

(** The boolean mask of line 53 *)
Definition window_mask (index : list Timestamp) (start_date end_date : Timestamp)
  : list bool :=
  in_window start_date end_date <$> index.

Definition realized_volatility_window (self : MacroEventAnalyzer)
    (start_date end_date : Timestamp) : result float :=
  let mask := window_mask (df_index (price_data self)) start_date end_date in
  all_returns ← calculate_log_returns self;
  let log_returns := bool_index mask all_returns in
  if Series_len log_returns <? 2 then Ok NaN
  else Ok (Series_std (values log_returns) * PrimFloat.sqrt 252)%float.

(** The body of the loop over events (lines 89-109): the record appended to
    [results]. *)
Definition analyze_event (self : MacroEventAnalyzer)
    (pre_window_days post_window_days : Z)
    (results : list ImpactRecord) (event : Event) : result (list ImpactRecord) :=
  date ← dict_getitem event "date";
  event_date ← pd_to_datetime date;
  pre_start ← window_start event_date pre_window_days;
  post_end ← window_end event_date post_window_days;
  pre_vol ← realized_volatility_window self pre_start event_date;
  post_vol ← realized_volatility_window self event_date post_end;
  let vol_change := (post_vol - pre_vol)%float in
  let vol_change_pct :=
    if float_ne pre_vol 0%float then (vol_change / pre_vol * 100)%float
    else NaN in
  name ← dict_getitem event "name";
  Ok (results ++
      [ {| event_date := event_date;
           event_name := name;
           event_type := dict_get event "type" "unknown";
           pre_volatility := pre_vol;
           post_volatility := post_vol;
           volatility_change := vol_change;
           volatility_change_pct := vol_change_pct;
           pre_window_days := pre_window_days;
           post_window_days := post_window_days |} ]).

Definition event_impact_analysis (self : MacroEventAnalyzer)
    (events : list Event) (pre_window_days post_window_days : Z)
  : result ImpactFrame :=
  results ← for_each (analyze_event self pre_window_days post_window_days)
                     events [];
  sort_values_event_date (DataFrame_of_records results).

(** The rows of [df] whose [event_type] equals [ty]
    ([df[df['event_type'] == ty]]). *)
Definition subset_of (df : ImpactFrame) (ty : string) : result ImpactFrame :=
  types ← impact_column df "event_type" event_type;
  Ok {| if_columns := if_columns df;
        if_rows := bool_index ((λ t, bool_decide (t = ty)) <$> types)
                              (if_rows df) |}.

(** The body of the loop over event types (lines 129-139). *)
Definition summarize_type (event_impacts_df : ImpactFrame)
    (summary : list (string * TypeSummary)) (ty : string)
  : result (list (string * TypeSummary)) :=
  subset ← subset_of event_impacts_df ty;
  pre ← impact_column subset "pre_volatility" pre_volatility;
  post ← impact_column subset "post_volatility" post_volatility;
  change ← impact_column subset "volatility_change" volatility_change;
  pct ← impact_column subset "volatility_change_pct" volatility_change_pct;
  change' ← impact_column subset "volatility_change" volatility_change;
  Ok (dict_set summary ty
        {| count := ImpactFrame_len subset;
           avg_pre_vol := Series_mean pre;
           avg_post_vol := Series_mean post;
           avg_vol_change := Series_mean change;
           avg_vol_change_pct := Series_mean pct;
           vol_increase_frequency :=
             count_ratio (count_positive change') (ImpactFrame_len subset) |}).

Definition event_summary_statistics (self : MacroEventAnalyzer)
    (event_impacts_df : ImpactFrame) : result (list (string * TypeSummary)) :=
  types ← impact_column event_impacts_df "event_type" event_type;
  for_each (summarize_type event_impacts_df) (unique types) [].

End Analyzer.

(* ================================================================== *)
(** ** The same operations over a store of objects

    Python passes references. To state that an operation leaves its
    arguments alone, the operations are written a second time over a store:
    a list of objects addressed by position. Every pandas call that returns
    a new object allocates a cell; [ewma_var.iloc[i] = ...],
    [results.append(...)] and [summary[event_type] = ...] overwrite a cell.
    An exception leaves the store as it was when it was raised. *)

Inductive pyobj : Type :=
  | OFrame (df : DataFrame)
  | OSeries (s : Series)
  | OEvents (events : list Event)
  | ORecords (results : list ImpactRecord)
  | OImpacts (df : ImpactFrame)
  | OSummary (summary : list (string * TypeSummary)).

Definition M (A : Type) : Type := list pyobj → result A * list pyobj.

#[global] Instance M_ret : MRet M := λ A a h, (Ok a, h).
#[global] Instance M_bind : MBind M := λ A B f m h,
  match m h with
  | (Ok a, h') => f a h'
  | (Err e, h') => (Err e, h')
  end.

(** A pure step that may raise. *)
Definition lift {A : Type} (r : result A) : M A := λ h, (r, h).

(** A new object; its reference is the next free position. *)
Definition alloc (o : pyobj) : M nat := λ h, (Ok (length h), h ++ [o]).

Definition load (l : nat) : M pyobj := λ h,
  match h !! l with
  | Some o => (Ok o, h)
  | None => (Err (TypeError "no such object"), h)
  end.

(** Overwriting the object behind a reference. *)
Definition store (l : nat) (o : pyobj) : M unit := λ h,
  match h !! l with
  | Some _ => (Ok (), <[l := o]> h)
  | None => (Err (TypeError "no such object"), h)
  end.

Definition load_frame (l : nat) : M DataFrame :=
  o ← load l;
  match o with OFrame df => mret df | _ => lift (Err (TypeError "DataFrame")) end.

Definition load_series (l : nat) : M Series :=
  o ← load l;
  match o with OSeries s => mret s | _ => lift (Err (TypeError "Series")) end.

Definition load_events (l : nat) : M (list Event) :=
  o ← load l;
  match o with OEvents e => mret e | _ => lift (Err (TypeError "list")) end.

Definition load_records (l : nat) : M (list ImpactRecord) :=
  o ← load l;
  match o with ORecords r => mret r | _ => lift (Err (TypeError "list")) end.

Definition load_impacts (l : nat) : M ImpactFrame :=
  o ← load l;
  match o with OImpacts f => mret f | _ => lift (Err (TypeError "DataFrame")) end.

Definition load_summary (l : nat) : M (list (string * TypeSummary)) :=
  o ← load l;
  match o with OSummary d => mret d | _ => lift (Err (TypeError "dict")) end.

(** [for x in xs: body(x)] *)
Fixpoint for_each_M {A : Type} (body : A → M unit) (xs : list A) : M unit :=
  match xs with
  | [] => mret ()
  | x :: xs' => _ ← body x; for_each_M body xs'
  end.

(** EWMA.py lines 39-41 on the two Series objects. *)
Definition ewma_step_heap (lambda_param : float)
    (squared_returns ewma_var : nat) (i : nat) : M unit :=
  sq ← load_series squared_returns;
  prev_sq ← lift (iloc sq (i - 1));
  if isnan prev_sq then mret () else
  var ← load_series ewma_var;
  prev_var ← lift (iloc var (i - 1));
  if isnan prev_var then mret () else
  sq' ← load_series squared_returns;
  cur_sq ← lift (iloc sq' i);
  var' ← load_series ewma_var;
  updated ← lift (iloc_set var' i
               (lambda_param * prev_var + (1 - lambda_param) * cur_sq)%float);
  store ewma_var (OSeries updated).

Definition get_estimator_heap (ln : float → float) (price_data : nat)
    (lambda_param trading_periods : float) (clean : bool) : M nat :=
  df ← load_frame price_data;
  close ← lift (getitem df "Close");
  log_return ← alloc (OSeries (log_returns_of ln close));
  lr ← load_series log_return;
  squared_returns ← alloc (OSeries (Series_square lr));
  sq ← load_series squared_returns;
  ewma_var ← alloc (OSeries (Series_copy sq));
  _ ← for_each_M (ewma_step_heap lambda_param squared_returns ewma_var)
                 (range 1 (Series_len sq));
  var ← load_series ewma_var;
  annualize ← lift (math_sqrt trading_periods);
  result ← alloc (OSeries (Series_scale (Series_apply PrimFloat.sqrt var)
                                        annualize));
  if clean
  then res ← load_series result; alloc (OSeries (dropna res))
  else mret result.

(** The analyzer object: its two attributes are references. *)
Record AnalyzerRef : Type := mkAnalyzerRef {
  price_data_ref : nat;
  volatility_ref : nat
}.

Section AnalyzerHeap.

Variable ln : float → float.
Variable fsum : list float → float.
Variable to_datetime : string → option Timestamp.

Definition calculate_log_returns_heap (self : AnalyzerRef) : M nat :=
  df ← load_frame (price_data_ref self);
  close ← lift (getitem df "Close");
  alloc (OSeries (Series_apply ln (Series_div close (shift close)))).

Definition realized_volatility_window_heap (self : AnalyzerRef)
    (start_date end_date : Timestamp) : M float :=
  df ← load_frame (price_data_ref self);
  let mask := window_mask (df_index df) start_date end_date in
  all_returns ← calculate_log_returns_heap self;
  lr ← load_series all_returns;
  selected ← alloc (OSeries (bool_index mask lr));
  log_returns ← load_series selected;
  if Series_len log_returns <? 2 then mret NaN
  else mret (Series_std fsum (values log_returns) * PrimFloat.sqrt 252)%float.

Definition analyze_event_heap (self : AnalyzerRef)
    (pre_window_days post_window_days : Z) (results : nat) (event : Event)
  : M unit :=
  date ← lift (dict_getitem event "date");
  event_date ← lift (pd_to_datetime to_datetime date);
  pre_start ← lift (window_start event_date pre_window_days);
  post_end ← lift (window_end event_date post_window_days);
  pre_vol ← realized_volatility_window_heap self pre_start event_date;
  post_vol ← realized_volatility_window_heap self event_date post_end;
  let vol_change := (post_vol - pre_vol)%float in
  let vol_change_pct :=
    if float_ne pre_vol 0%float then (vol_change / pre_vol * 100)%float
    else NaN in
  name ← lift (dict_getitem event "name");
  so_far ← load_records results;
  store results
    (ORecords (so_far ++
      [ {| event_date := event_date;
           event_name := name;
           event_type := dict_get event "type" "unknown";
           pre_volatility := pre_vol;
           post_volatility := post_vol;
           volatility_change := vol_change;
           volatility_change_pct := vol_change_pct;
           pre_window_days := pre_window_days;
           post_window_days := post_window_days |} ])).

Definition event_impact_analysis_heap (self : AnalyzerRef) (events : nat)
    (pre_window_days post_window_days : Z) : M nat :=
  results ← alloc (ORecords []);
  evs ← load_events events;
  _ ← for_each_M (analyze_event_heap self pre_window_days post_window_days
                                      results) evs;
  rs ← load_records results;
  frame ← alloc (OImpacts (DataFrame_of_records rs));
  f ← load_impacts frame;
  sorted ← lift (sort_values_event_date f);
  alloc (OImpacts sorted).

Definition summarize_type_heap (event_impacts_df summary : nat) (ty : string)
  : M unit :=
  df ← load_impacts event_impacts_df;
  so_far ← load_summary summary;
  updated ← lift (summarize_type fsum df so_far ty);
  store summary (OSummary updated).

Definition event_summary_statistics_heap (self : AnalyzerRef)
    (event_impacts_df : nat) : M nat :=
  summary ← alloc (OSummary []);
  df ← load_impacts event_impacts_df;
  types ← lift (impact_column df "event_type" event_type);
  _ ← for_each_M (summarize_type_heap event_impacts_df summary) (unique types);
  mret summary.

End AnalyzerHeap.

(** The objects of [h] are still there, unchanged, in [h']. *)
Definition unchanged (h h' : list pyobj) : Prop :=
  ∀ l o, h !! l = Some o → h' !! l = Some o.

(** Run from a store that has the [n] caller's objects at its start, [m]
    leaves them as they are, whether it returns or raises, and what it
    returns satisfies [Q]. *)
Definition frames {A : Type} (n : nat) (m : M A) (Q : A → Prop) : Prop :=
  ∀ h, n ≤ length h →
    take n (m h).2 = take n h ∧ length h ≤ length (m h).2
    ∧ match (m h).1 with Ok a => Q a | Err _ => True end.

(** [m] changes no cell other than [v]. *)
Definition writes_only {A : Type} (v : nat) (m : M A) : Prop :=
  ∀ h l, l ≠ v → (m h).2 !! l = h !! l.

(** Not negative: NaN, both zeros and every positive double, as in
    [not (x < 0)]. *)
Definition not_negative (x : float) : bool := negb (PrimFloat.ltb x 0%float).

(** The same on the specification of doubles. *)
Definition sf_not_negative (f : spec_float) : bool :=
  match f with
  | S754_finite true _ _ | S754_infinity true => false
  | _ => true
  end.

(** The record the loop body builds for [event]: its date, name and type
    come from the dict, its two volatilities from the windows before and
    after the date. *)
Record event_record (ln : float → float) (fsum : list float → float)
    (to_datetime : string → option Timestamp) (self : MacroEventAnalyzer)
    (pre post : Z) (event : Event) (r : ImpactRecord) : Prop := {
  rec_date : (assoc "date" event ≫= to_datetime) = Some (event_date r);
  rec_name : assoc "name" event = Some (event_name r);
  rec_type : event_type r = dict_get event "type" "unknown";
  rec_pre :
    (pre_start ← window_start (event_date r) pre;
     realized_volatility_window ln fsum self pre_start (event_date r))
    = Ok (pre_volatility r);
  rec_post :
    (post_end ← window_end (event_date r) post;
     realized_volatility_window ln fsum self (event_date r) post_end)
    = Ok (post_volatility r)
}.

(** Both ends of the windows around [event_date] can be computed: the day
    counts are in [timedelta]'s range and the ends are timestamps. *)
Definition window_in_range (pre post : Z) (event_date : Timestamp) : bool :=
  match window_start event_date pre, window_end event_date post with
  | Ok _, Ok _ => true
  | _, _ => false
  end.

(** The same for an event, when its [date] is there and parses. *)
Definition windows_ok (to_datetime : string → option Timestamp)
    (pre post : Z) (event : Event) : bool :=
  match assoc "date" event ≫= to_datetime with
  | Some t => window_in_range pre post t
  | None => true
  end.

(** The exception the loop body raises on an event that is not well formed:
    the keys are read in the order [date], then [name]. *)
Definition event_error (to_datetime : string → option Timestamp)
    (event : Event) : exn :=
  match assoc "date" event with
  | None => KeyError "date"
  | Some d =>
      match to_datetime d with
      | None => ValueError "Unknown datetime string format"
      | Some _ => KeyError "name"
      end
  end.

(* ================================================================== *)
(** ** Reference instances of the library functions

    Concrete functions to run the model on: the theorems quantify over the
    library functions, the examples use these. *)

(** The partial sums of the atanh series [1 + u/3 + u^2/5 + ...], by Horner's
    rule over the odd denominators. *)
Fixpoint atanh_series (denominators : list float) (u : float) : float :=
  match denominators with
  | [] => 0%float
  | d :: rest => (1 / d + u * atanh_series rest u)%float
  end.

(** A natural logarithm on doubles: the special values of C99 ([log 1 = 0],
    NaN below zero, minus infinity at zero), and elsewhere
    [k * ln 2 + 2 * atanh ((m - 1) / (m + 1))] for [x = m * 2^k] with [m]
    near 1. It agrees with a libm [log] up to the last few bits. *)
Definition log_model (x : float) : float :=
  if isnan x then NaN
  else if PrimFloat.ltb x 0%float then NaN
  else if PrimFloat.eqb x 0%float then neg_infinity
  else if PrimFloat.eqb x infinity then infinity
  else
    let '(m, e) := PrimFloat.frshiftexp x in
    let k := (Uint63.to_Z e - FloatOps.shift)%Z in
    let '(m, k) :=
      if PrimFloat.ltb m 0x1.6a09e667f3bcdp-1%float
      then ((2 * m)%float, (k - 1)%Z) else (m, k) in
    let t := ((m - 1) / (m + 1))%float in
    (float_of_Z k * 0x1.62e42fefa39efp-1
     + 2 * t * atanh_series [1; 3; 5; 7; 9; 11; 13; 15; 17; 19; 21; 23; 25]
                            (t * t))%float.

(** Summation from left to right. *)
Definition sum_left (xs : list float) : float :=
  foldl (λ acc x, (acc + x)%float) 0%float xs.

Definition digit_of (c : Ascii.ascii) : option Z :=
  let n := Z.of_nat (Ascii.nat_of_ascii c) in
  if ((48 <=? n) && (n <=? 57))%Z then Some (n - 48)%Z else None.

Fixpoint number_of (acc : Z) (s : string) : option Z :=
  match s with
  | EmptyString => Some acc
  | String c rest => d ← digit_of c; number_of (10 * acc + d)%Z rest
  end.

(** Days from 1970-01-01 to a date of the proleptic Gregorian calendar. *)
Definition days_from_civil (y m d : Z) : Z :=
  let y' := (if m <=? 2 then y - 1 else y)%Z in
  let era := (y' / 400)%Z in
  let yoe := (y' - era * 400)%Z in
  let mp := ((m + 9) mod 12)%Z in
  let doy := ((153 * mp + 2) / 5 + d - 1)%Z in
  let doe := (yoe * 365 + yoe / 4 - yoe / 100 + doy)%Z in
  (era * 146097 + doe - 719468)%Z.

(** Dates written [YYYY-MM-DD], at midnight, within the range of a
    [Timestamp]. *)
Definition parse_iso_date (s : string) : option Timestamp :=
  if decide (String.length s = 10 ∧ String.get 4 s = Some "-"%char
             ∧ String.get 7 s = Some "-"%char)
  then
    y ← number_of 0 (substring 0 4 s);
    m ← number_of 0 (substring 5 2 s);
    d ← number_of 0 (substring 8 2 s);
    let ns := (days_from_civil y m d * ns_per_day)%Z in
    if ((1 <=? m) && (m <=? 12) && (1 <=? d) && (d <=? 31))%Z
       && ns_in_range ns
    then Some ns else None
  else None.

(** An event the loop body can process: it has a [date] that parses and a
    [name]. *)
Definition well_formed_event (to_datetime : string → option Timestamp)
    (event : Event) : bool :=
  match assoc "date" event, assoc "name" event with
  | Some d, Some _ => bool_decide (is_Some (to_datetime d))
  | _, _ => false
  end.

(** What the loop body guarantees of the record it appends. *)
Record impact_ok (pre post : Z) (r : ImpactRecord) : Prop := {
  ok_pre_days : pre_window_days r = pre;
  ok_post_days : post_window_days r = post;
  ok_change :
    volatility_change r = (post_volatility r - pre_volatility r)%float;
  ok_change_pct :
    volatility_change_pct r =
      if float_ne (pre_volatility r) 0%float
      then (volatility_change r / pre_volatility r * 100)%float
      else NaN
}.

(** The records of [df] whose type is [ty]. *)
Definition group_of (df : ImpactFrame) (ty : string) : list ImpactRecord :=
  snd <$> filter (λ row, event_type row.2 = ty) (if_rows df).

(** [m] is the mean of [xs] with the missing values left out: the mean of the
    values that are not NaN, and NaN when every value is missing. *)
Definition mean_ignoring_missing (fsum : list float → float)
    (xs : list float) (m : float) : Prop :=
  m = mean_of fsum (notna xs)
  ∧ (Forall (λ x, isnan x = true) xs → m = NaN).

(** The summary entry of one event type, written over its group. *)
Definition summary_of (fsum : list float → float) (df : ImpactFrame)
    (ty : string) : TypeSummary :=
  let group := group_of df ty in
  {| count := length group;
     avg_pre_vol := Series_mean fsum (pre_volatility <$> group);
     avg_post_vol := Series_mean fsum (post_volatility <$> group);
     avg_vol_change := Series_mean fsum (volatility_change <$> group);
     avg_vol_change_pct := Series_mean fsum (volatility_change_pct <$> group);
     vol_increase_frequency :=
       count_ratio (count_positive (volatility_change <$> group))
                   (length group) |}.

(** Three equal closes on consecutive days. *)
Definition flat_prices : DataFrame :=
  {| df_index := [0; 86400000000000; 172800000000000]%Z;
     df_columns := [("Close", [100; 100; 100]%float)] |}.

Definition three_days : list Timestamp :=
  [0; 86400000000000; 172800000000000]%Z.

Definition flat_close : Series := zip three_days [100; 100; 100]%float.

Definition six_days : list Timestamp :=
  (λ d, d * ns_per_day)%Z <$> [0; 1; 2; 3; 4; 5]%Z.

(** Squared returns with a gap in the middle: missing at positions 0 and 2,
    present at 1, 3 and 4. *)
Definition gapped_squares : Series :=
  zip (take 5 six_days) [nan; 0.25; nan; 1; 4]%float.

(** Six numeric closes, the third one negative: the log returns into and out
    of it are NaN, a gap at positions 2 and 3. *)
Definition gapped_prices : DataFrame :=
  {| df_index := six_days;
     df_columns := [("Close", [100; 100; -100; 100; 100; 100]%float)] |}.

Definition gapped_close : Series :=
  zip six_days [100; 100; -100; 100; 100; 100]%float.

(** Eleven trading days from 2024-01-08 (weekends left out): flat closes up
    to 2024-01-15, moving closes after. *)
Definition sample_prices : DataFrame :=
  {| df_index :=
       (λ d, d * ns_per_day)%Z <$>
       [19730; 19731; 19732; 19733; 19734; 19737; 19738; 19739; 19740; 19741;
        19744]%Z;
     df_columns :=
       [("Close",
         [100; 100; 100; 100; 100; 100; 101; 99; 102; 103; 101]%float)] |}.

Definition sample_analyzer : MacroEventAnalyzer :=
  {| price_data := sample_prices; volatility := [] |}.

(** Two events, the later one first; the second has no [type]. *)
Definition sample_events : list Event :=
  [ [("date", "2024-01-15"); ("name", "CPI Release"); ("type", "inflation")];
    [("date", "2024-01-10"); ("name", "FOMC Meeting")] ].

(** The same two events, whose seven days before are flat, and a third one
    on 2024-01-19, after the closes have started to move. *)
Definition mixed_events : list Event :=
  sample_events
  ++ [ [("date", "2024-01-19"); ("name", "Jobs Report");
        ("type", "employment")] ].

(** A frame of three impact records: two of type [inflation], one of them
    with a missing percentage, and one of type [unknown] with every figure
    missing. *)
Definition sample_impacts : ImpactFrame :=
  {| if_columns := impact_columns;
     if_rows :=
       [ (1, mkImpact 1704844800000000000 "FOMC Meeting" "unknown"
                nan nan nan nan 7 7);
         (0, mkImpact 1705276800000000000 "CPI Release" "inflation"
                0 0.25 0.25 nan 7 7);
         (2, mkImpact 1705363200000000000 "PPI Release" "inflation"
                0.5 0.25 (-0.25) (-50) 7 7) ] |}.

(** A frame with an [Open] column only, and an analyzer over it. *)
Definition open_only_prices : DataFrame :=
  {| df_index := three_days;
     df_columns := [("Open", [100; 101; 102]%float)] |}.

Definition open_only_analyzer : MacroEventAnalyzer :=
  {| price_data := open_only_prices; volatility := [] |}.

(** An event without a [date], and one whose date does not parse. *)
Definition undated_event : Event := [("name", "Jobs Report")].

Definition misdated_event : Event :=
  [("date", "next week"); ("name", "Jobs Report")].

(** An event without a [name]. *)
Definition unnamed_event : Event := [("date", "2024-01-12")].

(* ================================================================== *)
(** * Properties *)

Lemma for_each_ext {A S : Type} (f g : S → A → result S) (xs : list A) :
  (∀ s x, f s x = g s x) → ∀ s, for_each f xs s = for_each g xs s.
Proof.
  intros Hfg. induction xs as [|x xs IH]; intros s; cbn; [done|].
  rewrite Hfg. destruct (g s x); cbn; [apply IH | done].
Qed.

(** ** The EWMA scan *)

Lemma fmap_fst_length (s t : Series) : s.*1 = t.*1 → length s = length t.
Proof. intros H. rewrite <- (length_fmap fst s), H. apply length_fmap. Qed.

Lemma values_lookup (s : Series) i : values s !! i = snd <$> s !! i.
Proof. unfold values. apply list_lookup_fmap. Qed.

(** Inside the range the four reads of the loop body succeed, and the body
    either leaves the series alone or overwrites slot [i]. *)
Lemma ewma_step_spec lam (sq var : Series) (i : nat) :
  1 ≤ i → i < length sq → var.*1 = sq.*1 →
  ∃ ps pv cs cv,
    sq !! (i - 1) = Some ps ∧ var !! (i - 1) = Some pv ∧
    sq !! i = Some cs ∧ var !! i = Some cv ∧
    ewma_step lam sq var i =
      Ok (if isnan ps.2 || isnan pv.2 then var
          else <[i := (cv.1, lam * pv.2 + (1 - lam) * cs.2)%float]> var).
Proof.
  intros Hi Hlt Hidx.
  pose proof (fmap_fst_length _ _ Hidx) as Hlen.
  destruct (lookup_lt_is_Some_2 sq (i - 1)) as [ps Hps]; [lia|].
  destruct (lookup_lt_is_Some_2 var (i - 1)) as [pv Hpv]; [lia|].
  destruct (lookup_lt_is_Some_2 sq i) as [cs Hcs]; [lia|].
  destruct (lookup_lt_is_Some_2 var i) as [cv Hcv]; [lia|].
  exists ps, pv, cs, cv. repeat split; try done.
  unfold ewma_step, iloc, iloc_set. rewrite Hps. cbn.
  destruct (isnan ps.2); [done|].
  rewrite Hpv. cbn. destruct (isnan pv.2); [done|].
  rewrite Hcs. cbn. by rewrite Hcv.
Qed.

Lemma ewma_step_inv lam sq var i :
  1 ≤ i → i < length sq → ewma_inv lam sq var i →
  ∃ var', ewma_step lam sq var i = Ok var' ∧ ewma_inv lam sq var' (S i).
Proof.
  intros Hi Hlt [Hl Hr Hh Hd].
  destruct (ewma_step_spec lam sq var i Hi Hlt Hl)
    as (ps & pv & cs & cv & Hps & Hpv & Hcs & Hcv & ->).
  eexists; split; [reflexivity|].
  assert (Hcur : var !! i = Some cs) by (rewrite Hr by lia; done).
  assert (cv = cs) as -> by congruence.
  destruct (isnan ps.2 || isnan pv.2) eqn:Hg.
  - split; auto.
    + intros j Hj. apply Hr. lia.
    + intros t ps' pv' cs' H1 H2 Hps' Hpv' Hcs'.
      destruct (decide (t = i)) as [->|Hne]; [|apply Hd; auto; lia].
      rewrite values_lookup in *. rewrite Hps in Hps'. rewrite Hpv in Hpv'.
      rewrite Hcs in Hcs'. rewrite Hcur. simplify_eq/=.
      unfold ewma_slot. by rewrite Hg.
  - split.
    + rewrite <- Hl. rewrite list_fmap_insert. cbn.
      apply list_insert_id. rewrite list_lookup_fmap, Hcur. done.
    + intros j Hj. rewrite list_lookup_insert_ne by lia. apply Hr. lia.
    + rewrite list_lookup_insert_ne by lia. apply Hh.
    + intros t ps' pv' cs' H1 H2 Hps' Hpv' Hcs'.
      rewrite values_lookup in *.
      destruct (decide (t = i)) as [->|Hne].
      * rewrite list_lookup_insert_ne in Hpv' by lia.
        rewrite list_lookup_insert_eq
          by (rewrite <- (fmap_fst_length _ _ Hl) in Hlt; lia).
        rewrite Hps in Hps'. rewrite Hpv in Hpv'. rewrite Hcs in Hcs'.
        simplify_eq/=. unfold ewma_slot. by rewrite Hg.
      * rewrite list_lookup_insert_ne in Hpv' by lia.
        rewrite list_lookup_insert_ne by lia.
        rewrite <- values_lookup in *. apply Hd; auto. lia.
Qed.

Lemma ewma_loop_inv lam sq k : ∀ i var,
  1 ≤ i → i + k = length sq → ewma_inv lam sq var i →
  ∃ var', for_each (ewma_step lam sq) (seq i k) var = Ok var'
          ∧ ewma_inv lam sq var' (length sq).
Proof.
  induction k as [|k IH]; intros i var Hi Hn Hinv.
  - exists var. split; [done|]. by replace (length sq) with i by lia.
  - destruct (ewma_step_inv lam sq var i) as (var1 & Hs & Hinv1); [lia..|done|].
    destruct (IH (S i) var1) as (var' & Hf & Hinv'); [lia..|done|].
    exists var'. split; [|done]. cbn. rewrite Hs. exact Hf.
Qed.

(** The scan never raises, and every slot of its result obeys the step
    rule. *)
Lemma ewma_variance_spec lam sq :
  ∃ var, ewma_variance lam sq = Ok var ∧ ewma_inv lam sq var (length sq).
Proof.
  unfold ewma_variance, range, Series_len, Series_copy.
  destruct sq as [|p sq'].
  - exists []. split; [done|]. split; done.
  - apply ewma_loop_inv; [lia | cbn; lia |].
    split; try done. intros; lia.
Qed.

(** C1, as the code has it: [get_estimator] starts its running variance as
    a copy of the squared returns (so slot 0 holds the first squared return)
    and then scans once. The scan never raises. Where the previous squared
    return and the previous variance are both present, slot [t] becomes
    [lambda * var[t-1] + (1 - lambda) * squared_return[t]]; where either is
    NaN the update is skipped and slot [t] keeps its own squared return
    [squared_return[t]]: the variance is seeded again from the current
    squared return, and NaN is not carried forward. The returned series is the
    annualized square root of that variance. *)
Theorem get_estimator_ewma_recurrence (ln : float → float) (df : DataFrame)
    (lambda_param trading_periods : float) (close : Series) :
  getitem df "Close" = Ok close →
  ∃ var,
    ewma_variance lambda_param (squared_returns_of ln close) = Ok var
    ∧ var.*1 = (squared_returns_of ln close).*1
    ∧ values var !! 0 = values (squared_returns_of ln close) !! 0
    ∧ (∀ t prev_sq prev_var cur_sq,
         1 ≤ t →
         values (squared_returns_of ln close) !! (t - 1) = Some prev_sq →
         values var !! (t - 1) = Some prev_var →
         values (squared_returns_of ln close) !! t = Some cur_sq →
         values var !! t =
           Some (if isnan prev_sq || isnan prev_var then cur_sq
                 else (lambda_param * prev_var
                       + (1 - lambda_param) * cur_sq)%float))
    ∧ (∀ annualize, math_sqrt trading_periods = Ok annualize →
         get_estimator ln df lambda_param trading_periods false
         = Ok (Series_scale (Series_apply PrimFloat.sqrt var) annualize)).
Proof.
  intros Hclose.
  destruct (ewma_variance_spec lambda_param (squared_returns_of ln close))
    as (var & Hvar & [Hl Hr Hh Hd]).
  exists var. split_and!; try done.
  - rewrite !values_lookup. by rewrite Hh.
  - intros t ps pv cs Ht Hps Hpv Hcs.
    pose proof (lookup_lt_Some _ _ _ Hcs) as Hlt.
    unfold values in Hlt. rewrite length_fmap in Hlt. by apply Hd.
  - intros ann Hann. unfold get_estimator.
    rewrite Hclose. cbn. rewrite Hvar. cbn. by rewrite Hann.
Qed.

Lemma get_estimator_ewma_recurrence_witness :
  getitem flat_prices "Close" = Ok flat_close
  ∧ ∃ var,
      ewma_variance 0.94 (squared_returns_of log_model flat_close) = Ok var
      ∧ get_estimator log_model flat_prices 0.94 252 false
        = Ok (Series_scale (Series_apply PrimFloat.sqrt var)
                           (PrimFloat.sqrt 252)).
Proof.
  split; [reflexivity|].
  destruct (get_estimator_ewma_recurrence log_model flat_prices 0.94 252
              flat_close eq_refl) as (var & Hvar & _ & _ & _ & Hres).
  exists var. split; [exact Hvar|]. apply Hres. reflexivity.
Defined.

(** C1 as the specification words it fails after a gap in the middle of
    the series. On the squared returns [NaN, 0.25, NaN, 1, 4] the one at
    position 2 is missing, yet the variance at position 3 is the squared
    return of position 3, not NaN, and the recurrence goes on from it at
    position 4: the scan gives [NaN, 0.25, NaN, 1, 0.94 * 1 + 0.06 * 4],
    where carrying the marker forward would give [NaN, 0.25, NaN, NaN, NaN].
    The same on prices: with six numeric closes of which the third is
    negative, the squared returns are [NaN, 0, NaN, NaN, 0, 0] and the
    estimator returns [NaN, 0, NaN, NaN, 0, 0]; the value at position 4 is
    the squared return seeded again after the gap, not a marker carried
    forward. *)
Lemma get_estimator_reseeds_after_gap :
  (∃ var,
     ewma_variance 0.94 gapped_squares = Ok var
     ∧ isnan <$> values gapped_squares = [true; false; true; false; false]
     ∧ values var = [nan; 0.25; nan; 1; 0.94 * 1 + (1 - 0.94) * 4]%float
     ∧ isnan <$> values var = [true; false; true; false; false])
  ∧ getitem gapped_prices "Close" = Ok gapped_close
  ∧ squared_returns_of log_model gapped_close
    = zip six_days [nan; 0; nan; nan; 0; 0]%float
  ∧ get_estimator log_model gapped_prices 0.94 252 false
    = Ok (zip six_days [nan; 0; nan; nan; 0; 0]%float).
Proof.
  split; [|repeat split; vm_compute; reflexivity].
  eexists. split; [vm_compute; reflexivity|].
  repeat split; vm_compute; reflexivity.
Qed.

(** C3, as the code has it: [get_estimator] never looks at the range of
    [lambda_param]. Whatever its value, the call fails only for a frame
    without a [Close] column ([KeyError]) or a negative [trading_periods]
    ([ValueError] from [math.sqrt], raised after the scan has run), and
    otherwise returns a series. *)
Theorem get_estimator_no_lambda_check (ln : float → float) (df : DataFrame)
    (lambda_param trading_periods : float) (clean : bool) :
  match getitem df "Close", math_sqrt trading_periods with
  | Ok _, Ok _ =>
      ∃ s, get_estimator ln df lambda_param trading_periods clean = Ok s
  | Ok _, Err _ =>
      get_estimator ln df lambda_param trading_periods clean
      = Err (ValueError "math domain error")
  | Err _, _ =>
      get_estimator ln df lambda_param trading_periods clean
      = Err (KeyError "Close")
  end.
Proof.
  unfold get_estimator, getitem.
  destruct (assoc "Close" (df_columns df)) as [vals|]; [|done]. cbn.
  destruct (ewma_variance_spec lambda_param
              (squared_returns_of ln (zip (df_index df) vals)))
    as (var & -> & _). cbn.
  unfold math_sqrt. destruct (PrimFloat.ltb trading_periods 0); cbn; [done|].
  destruct clean; eauto.
Qed.

(** With [lambda_param] 2, 0 and 1, all outside the open interval (0,1), the
    estimator returns a series instead of failing. *)
Lemma get_estimator_accepts_any_lambda :
  get_estimator log_model flat_prices 2 252 false
    = Ok (zip three_days [nan; 0; 0]%float)
  ∧ get_estimator log_model flat_prices 0 252 true
    = Ok (zip (drop 1 three_days) [0; 0]%float)
  ∧ get_estimator log_model flat_prices 1 252 true
    = Ok (zip (drop 1 three_days) [0; 0]%float).
Proof. repeat split; vm_compute; reflexivity. Qed.

(** ** Labels and masks *)

Lemma Series_apply_labels f (s : Series) : (Series_apply f s).*1 = s.*1.
Proof.
  unfold Series_apply. rewrite <- list_fmap_compose.
  apply list_fmap_ext. by intros i [t x].
Qed.

Lemma Series_div_labels (a b : Series) :
  length a ≤ length b → (Series_div a b).*1 = a.*1.
Proof.
  unfold Series_div. revert b.
  induction a as [|x a IH]; intros [|y b] Hlen; cbn in *; try done; try lia.
  f_equal. apply IH. lia.
Qed.

Lemma shift_length (s : Series) : length (shift s) = length s.
Proof.
  unfold shift, values. rewrite length_zip, length_take, !length_fmap. cbn.
  rewrite length_fmap. lia.
Qed.

Lemma log_returns_labels ln (close : Series) :
  (log_returns_of ln close).*1 = close.*1.
Proof.
  unfold log_returns_of. rewrite Series_apply_labels.
  apply Series_div_labels. by rewrite shift_length.
Qed.

Lemma zip_labels (idx : list Timestamp) (vals : list float) :
  (zip idx vals).*1 = take (length (zip idx vals)) idx.
Proof.
  revert vals. induction idx as [|t idx IH]; intros [|v vals]; cbn; try done.
  f_equal. apply IH.
Qed.

(** Selecting by a mask computed from the labels is filtering on the label. *)
Lemma bool_index_labels (f : Timestamp → bool) (idx : list Timestamp) :
  ∀ l : Series, l.*1 = take (length l) idx →
  bool_index (f <$> idx) l = filter (λ p, f p.1 = true) l.
Proof.
  induction idx as [|t idx IH]; intros [|[t' x] l] Hl; try done.
  cbn in Hl. injection Hl as -> Hl.
  rewrite filter_cons, fmap_cons. cbn [bool_index fst].
  rewrite (IH l Hl). destruct (f t); by case_decide.
Qed.

Section AnalyzerProperties.

Variable ln : float → float.
Variable fsum : list float → float.
Variable to_datetime : string → option Timestamp.

Lemma calculate_log_returns_labels self lr :
  calculate_log_returns ln self = Ok lr →
  lr.*1 = take (length lr) (df_index (price_data self)).
Proof.
  unfold calculate_log_returns, getitem.
  destruct (assoc "Close" (df_columns (price_data self))) as [vals|]; [|done].
  cbn. intros [= <-].
  pose proof (log_returns_labels ln (zip (df_index (price_data self)) vals))
    as Hl.
  unfold log_returns_of in Hl. rewrite Hl.
  rewrite (fmap_fst_length _ _ Hl). apply zip_labels.
Qed.

(** The window's volatility, in terms of the log returns whose label lies in
    the window. *)
Lemma realized_volatility_window_spec self start_date end_date lr :
  calculate_log_returns ln self = Ok lr →
  realized_volatility_window ln fsum self start_date end_date
  = Ok (if length (filter (λ p, in_window start_date end_date p.1 = true) lr)
           <? 2
        then NaN
        else (Series_std fsum
                (values (filter (λ p, in_window start_date end_date p.1 = true)
                                lr))
              * PrimFloat.sqrt 252)%float).
Proof.
  intros Hlr. unfold realized_volatility_window, window_mask, Series_len.
  rewrite Hlr. cbn.
  rewrite (bool_index_labels _ _ lr (calculate_log_returns_labels _ _ Hlr)).
  by case_match.
Qed.

(** C5: when fewer than two log-return points carry a timestamp inside
    [start_date, end_date], [realized_volatility_window] returns NaN and does
    not raise. *)
Theorem realized_volatility_window_short self start_date end_date lr :
  calculate_log_returns ln self = Ok lr →
  length (filter (λ p, in_window start_date end_date p.1 = true) lr) < 2 →
  realized_volatility_window ln fsum self start_date end_date = Ok NaN.
Proof.
  intros Hlr Hshort.
  rewrite (realized_volatility_window_spec _ _ _ _ Hlr).
  by apply Nat.ltb_lt in Hshort as ->.
Qed.

(** ** The loop over events *)

Lemma calculate_log_returns_total self close :
  getitem (price_data self) "Close" = Ok close →
  calculate_log_returns ln self = Ok (log_returns_of ln close).
Proof. intros H. unfold calculate_log_returns. by rewrite H. Qed.

Lemma realized_volatility_window_total self close start_date end_date :
  getitem (price_data self) "Close" = Ok close →
  ∃ v, realized_volatility_window ln fsum self start_date end_date = Ok v.
Proof.
  intros H. eexists.
  apply realized_volatility_window_spec, (calculate_log_returns_total _ _ H).
Qed.

Ltac bind_inv H :=
  repeat match type of H with
  | (?m ≫= _) = Ok _ =>
      let E := fresh "E" in destruct m eqn:E; cbn in H; [|discriminate H]
  end.

Lemma analyze_event_inv self pre post results event results' :
  analyze_event ln fsum to_datetime self pre post results event = Ok results' →
  ∃ r, results' = results ++ [r] ∧ impact_ok pre post r.
Proof.
  unfold analyze_event. intros H. bind_inv H.
  injection H as <-. eexists. split; [reflexivity|]. by split.
Qed.

(** ** The date arithmetic of lines 90-91 *)

Lemma days_in_range_spec d :
  days_in_range d = true ↔ (- 999999999 ≤ d ≤ 999999999)%Z.
Proof.
  unfold days_in_range, timedelta_max_days.
  rewrite andb_true_iff, !Z.leb_le. lia.
Qed.

Lemma ns_in_range_spec ns :
  ns_in_range ns = true
  ↔ (- 9223372036854775807 ≤ ns ≤ 9223372036854775807)%Z.
Proof. unfold ns_in_range. rewrite andb_true_iff, !Z.leb_le. lia. Qed.

(** A window end exists exactly when the day count is in [timedelta]'s
    range and the delta and the end fit a 64-bit count of nanoseconds. *)
Lemma window_start_spec t pre s :
  window_start t pre = Ok s ↔
  days_in_range pre = true ∧ ns_in_range (pre * ns_per_day) = true
  ∧ ns_in_range (t - pre * ns_per_day) = true ∧ s = (t - pre * ns_per_day)%Z.
Proof.
  unfold window_start, timedelta, Timestamp_sub.
  destruct (days_in_range pre); cbn [mbind result_bind];
    [|split; [done|by intros [? _]]].
  destruct (ns_in_range (pre * ns_per_day));
    [|split; [done|by intros (_ & ? & _)]].
  destruct (ns_in_range (t - pre * ns_per_day));
    [|split; [done|by intros (_ & _ & ? & _)]].
  cbn. split; [by intros [= <-]|by intros (_ & _ & _ & ->)].
Qed.

Lemma window_end_spec t post s :
  window_end t post = Ok s ↔
  days_in_range post = true ∧ ns_in_range (post * ns_per_day) = true
  ∧ ns_in_range (t + post * ns_per_day) = true ∧ s = (t + post * ns_per_day)%Z.
Proof.
  unfold window_end, timedelta, Timestamp_add.
  destruct (days_in_range post); cbn [mbind result_bind];
    [|split; [done|by intros [? _]]].
  destruct (ns_in_range (post * ns_per_day));
    [|split; [done|by intros (_ & ? & _)]].
  destruct (ns_in_range (t + post * ns_per_day));
    [|split; [done|by intros (_ & _ & ? & _)]].
  cbn. split; [by intros [= <-]|by intros (_ & _ & _ & ->)].
Qed.

(** When the window ends exist, they are the date moved by the day counts. *)
Lemma window_in_range_ends pre post t :
  window_in_range pre post t = true ↔
  window_start t pre = Ok (t - pre * ns_per_day)%Z
  ∧ window_end t post = Ok (t + post * ns_per_day)%Z.
Proof.
  unfold window_in_range. split.
  - destruct (window_start t pre) as [s|] eqn:Hs; [|done].
    destruct (window_end t post) as [e|] eqn:He; [|done]. intros _.
    apply window_start_spec in Hs as (_ & _ & _ & ->).
    by apply window_end_spec in He as (_ & _ & _ & ->).
  - by intros [-> ->].
Qed.

Lemma window_in_range_spec pre post t :
  window_in_range pre post t = true ↔
  (- 999999999 ≤ pre ≤ 999999999
   ∧ - 9223372036854775807 ≤ pre * ns_per_day ≤ 9223372036854775807
   ∧ - 9223372036854775807 ≤ t - pre * ns_per_day ≤ 9223372036854775807
   ∧ - 999999999 ≤ post ≤ 999999999
   ∧ - 9223372036854775807 ≤ post * ns_per_day ≤ 9223372036854775807
   ∧ - 9223372036854775807 ≤ t + post * ns_per_day ≤ 9223372036854775807)%Z.
Proof.
  rewrite window_in_range_ends, window_start_spec, window_end_spec.
  rewrite !days_in_range_spec, !ns_in_range_spec. tauto.
Qed.

Lemma window_start_inv t pre s :
  window_start t pre = Ok s → s = (t - pre * ns_per_day)%Z.
Proof. by intros (_ & _ & _ & ->)%window_start_spec. Qed.

Lemma window_end_inv t post s :
  window_end t post = Ok s → s = (t + post * ns_per_day)%Z.
Proof. by intros (_ & _ & _ & ->)%window_end_spec. Qed.

Lemma analyze_event_total self pre post results event close :
  getitem (price_data self) "Close" = Ok close →
  well_formed_event to_datetime event = true →
  windows_ok to_datetime pre post event = true →
  ∃ r, analyze_event ln fsum to_datetime self pre post results event
       = Ok (results ++ [r]).
Proof.
  intros Hclose Hwf Hrange. unfold well_formed_event in Hwf.
  unfold windows_ok in Hrange.
  destruct (assoc "date" event) as [d|] eqn:Hd; [|done].
  destruct (assoc "name" event) as [nm|] eqn:Hn; [|done].
  apply bool_decide_eq_true in Hwf as [t Ht].
  cbn in Hrange. rewrite Ht in Hrange.
  apply window_in_range_ends in Hrange as [Hs He].
  unfold analyze_event, dict_getitem, pd_to_datetime.
  rewrite Hd, Hn. cbn. rewrite Ht. cbn. rewrite Hs. cbn. rewrite He. cbn.
  destruct (realized_volatility_window_total self close
              (t - pre * ns_per_day) t Hclose) as [v1 ->].
  destruct (realized_volatility_window_total self close
              t (t + post * ns_per_day) Hclose) as [v2 ->].
  cbn. eauto.
Qed.

Lemma for_each_analyze_inv self pre post events : ∀ acc results,
  for_each (analyze_event ln fsum to_datetime self pre post) events acc
  = Ok results →
  ∃ new, results = acc ++ new ∧ length new = length events
         ∧ Forall (impact_ok pre post) new.
Proof.
  induction events as [|ev events IH]; intros acc results H; cbn in H.
  - injection H as <-. exists []. by rewrite app_nil_r.
  - bind_inv H.
    destruct (analyze_event_inv _ _ _ _ _ _ E) as (r & -> & Hr).
    destruct (IH _ _ H) as (new & -> & Hlen & Hall).
    exists (r :: new). rewrite <- app_assoc. cbn.
    split_and!; [done | by rewrite Hlen | by constructor].
Qed.

Lemma for_each_analyze_total self pre post close events : ∀ acc,
  getitem (price_data self) "Close" = Ok close →
  Forall (λ ev, well_formed_event to_datetime ev = true) events →
  Forall (λ ev, windows_ok to_datetime pre post ev = true) events →
  ∃ results,
    for_each (analyze_event ln fsum to_datetime self pre post) events acc
    = Ok results.
Proof.
  induction events as [|ev events IH]; intros acc Hclose Hwf Hrange; cbn.
  - eauto.
  - inversion Hwf as [|? ? Hev Hrest]; subst.
    inversion Hrange as [|? ? Hev' Hrest']; subst.
    destruct (analyze_event_total self pre post acc ev close Hclose Hev Hev')
      as [r ->].
    cbn. by apply IH.
Qed.

Lemma date_le_total : Total date_le.
Proof. intros a b. unfold date_le. lia. Qed.

(** Whenever the analysis returns a frame, the frame has the nine columns
    and one row per event, every row obeys [impact_ok], the rows are the
    appended records under the labels 0, 1, ... in some order, and that
    order is ascending in [event_date]. *)
Lemma event_impact_analysis_inv self events pre post df :
  event_impact_analysis ln fsum to_datetime self events pre post = Ok df →
  if_columns df = impact_columns
  ∧ events ≠ []
  ∧ length (if_rows df) = length events
  ∧ Forall (λ row, impact_ok pre post row.2) (if_rows df)
  ∧ Sorted date_le (if_rows df).
Proof.
  unfold event_impact_analysis. intros H. bind_inv H.
  destruct (for_each_analyze_inv _ _ _ _ _ _ E) as (new & -> & Hlen & Hall).
  cbn in *. unfold sort_values_event_date in H.
  case_decide as Hcol; [|done]. injection H as <-. cbn in *.
  destruct new as [|r new]; [by apply elem_of_nil in Hcol|].
  split_and!.
  - done.
  - intros ->. done.
  - rewrite merge_sort_Permutation, length_zip, length_seq. lia.
  - rewrite merge_sort_Permutation.
    apply Forall_forall. intros [i r'] Hin.
    apply elem_of_zip_r in Hin. cbn.
    by eapply (proj1 (Forall_forall _ _) Hall).
  - apply (@Sorted_merge_sort _ date_le _ date_le_total).
Qed.

Lemma event_impact_analysis_total self events pre post close :
  getitem (price_data self) "Close" = Ok close →
  events ≠ [] →
  Forall (λ ev, well_formed_event to_datetime ev = true) events →
  Forall (λ ev, windows_ok to_datetime pre post ev = true) events →
  ∃ df, event_impact_analysis ln fsum to_datetime self events pre post = Ok df.
Proof.
  intros Hclose Hne Hwf Hrange. unfold event_impact_analysis.
  destruct (for_each_analyze_total self pre post close events [] Hclose Hwf
              Hrange) as [results Hres].
  rewrite Hres. cbn.
  destruct (for_each_analyze_inv _ _ _ _ _ _ Hres) as (new & -> & Hlen & _).
  destruct new as [|r new]; [by destruct events|].
  unfold sort_values_event_date. cbn. eauto.
Qed.

(** ** The claims on [event_impact_analysis] *)

(** C2 at the empty sequence: [pd.DataFrame([])] has no column, so
    [sort_values('event_date')] raises [KeyError]; no frame of length 0 is
    returned. *)
Theorem event_impact_analysis_empty_raises self pre post :
  event_impact_analysis ln fsum to_datetime self [] pre post
  = Err (KeyError "event_date").
Proof.
  unfold event_impact_analysis. cbn.
  unfold sort_values_event_date. cbn.
  case_decide as Hcol; [|done]. by apply elem_of_nil in Hcol.
Qed.

(** For a sequence that is not empty, in any order, the result is sorted
    ascending by date and has one row per event. *)
Lemma event_impact_analysis_sorted self events pre post close :
  getitem (price_data self) "Close" = Ok close →
  events ≠ [] →
  Forall (λ ev, well_formed_event to_datetime ev = true) events →
  Forall (λ ev, windows_ok to_datetime pre post ev = true) events →
  ∃ df, event_impact_analysis ln fsum to_datetime self events pre post = Ok df
        ∧ Sorted date_le (if_rows df)
        ∧ length (if_rows df) = length events.
Proof.
  intros Hclose Hne Hwf Hrange.
  destruct (event_impact_analysis_total self events pre post close)
    as [df Hdf]; try done.
  exists df. split; [done|].
  by destruct (event_impact_analysis_inv _ _ _ _ _ Hdf) as (_ & _ & ? & _ & ?).
Qed.

(** C4, as the code has it: [event_impact_analysis] never looks at the sign
    of [pre_window_days] or [post_window_days]; the only limits on them are
    those of the date arithmetic of lines 90-91. For any two integers, zero
    and negative ones included, for which [timedelta] and the two window
    ends of every event exist ([windows_ok]: the day counts within
    [timedelta]'s range and the ends within the range of a timestamp), a
    frame with a [Close] column and a non-empty list of well-formed events
    give a frame with one record per event, and no exception. *)
Theorem event_impact_analysis_no_window_check self events pre post close :
  getitem (price_data self) "Close" = Ok close →
  events ≠ [] →
  Forall (λ ev, well_formed_event to_datetime ev = true) events →
  Forall (λ ev, windows_ok to_datetime pre post ev = true) events →
  ∃ df, event_impact_analysis ln fsum to_datetime self events pre post = Ok df
        ∧ length (if_rows df) = length events.
Proof.
  intros Hclose Hne Hwf Hrange.
  destruct (event_impact_analysis_sorted self events pre post close)
    as (df & Hdf & _ & Hlen); try done.
  by exists df.
Qed.

(** C10: every record of the result carries the nine columns, among them
    [pre_window_days] and [post_window_days], and these two hold the values
    passed to the call. *)
Theorem event_impact_analysis_window_fields self events pre post df :
  event_impact_analysis ln fsum to_datetime self events pre post = Ok df →
  "pre_window_days" ∈ if_columns df
  ∧ "post_window_days" ∈ if_columns df
  ∧ impact_columns ⊆ if_columns df
  ∧ Forall (λ row, pre_window_days row.2 = pre ∧ post_window_days row.2 = post)
           (if_rows df).
Proof.
  intros Hdf.
  destruct (event_impact_analysis_inv _ _ _ _ _ Hdf) as (-> & _ & _ & Hall & _).
  split_and!.
  - unfold impact_columns. rewrite !elem_of_cons. tauto.
  - unfold impact_columns. rewrite !elem_of_cons. tauto.
  - done.
  - eapply Forall_impl; [exact Hall|]. by intros [i r] [? ? _ _].
Qed.

(** ** The volatility series is never read *)

Lemma analyzer_reads_prices_only (a b : MacroEventAnalyzer) :
  price_data a = price_data b →
  calculate_log_returns ln a = calculate_log_returns ln b
  ∧ (∀ s e, realized_volatility_window ln fsum a s e
            = realized_volatility_window ln fsum b s e)
  ∧ (∀ events pre post,
       event_impact_analysis ln fsum to_datetime a events pre post
       = event_impact_analysis ln fsum to_datetime b events pre post).
Proof.
  intros Hp.
  assert (Hlr : calculate_log_returns ln a = calculate_log_returns ln b)
    by (unfold calculate_log_returns; by rewrite Hp).
  assert (Hw : ∀ s e, realized_volatility_window ln fsum a s e
                      = realized_volatility_window ln fsum b s e)
    by (intros; unfold realized_volatility_window; by rewrite Hp, Hlr).
  split_and!; try done.
  intros events pre post. unfold event_impact_analysis.
  f_equal. apply for_each_ext. intros acc ev. unfold analyze_event.
  destruct (dict_getitem ev "date") as [d|]; cbn; [|done].
  destruct (pd_to_datetime to_datetime d) as [t|]; cbn; [|done].
  destruct (window_start t pre) as [pre_start|]; cbn; [|done].
  destruct (window_end t post) as [post_end|]; cbn; [|done].
  by rewrite !Hw.
Qed.

(** C7: two analyzers built over the same prices with different volatility
    series give the same log returns, the same window volatilities, the same
    event-impact frame and the same summary. *)
Theorem volatility_series_unused prices v1 v2 :
  calculate_log_returns ln (mkAnalyzer prices v1)
  = calculate_log_returns ln (mkAnalyzer prices v2)
  ∧ (∀ start_date end_date,
       realized_volatility_window ln fsum (mkAnalyzer prices v1)
         start_date end_date
       = realized_volatility_window ln fsum (mkAnalyzer prices v2)
           start_date end_date)
  ∧ (∀ events pre post,
       event_impact_analysis ln fsum to_datetime (mkAnalyzer prices v1)
         events pre post
       = event_impact_analysis ln fsum to_datetime (mkAnalyzer prices v2)
           events pre post)
  ∧ (∀ df,
       event_summary_statistics fsum (mkAnalyzer prices v1) df
       = event_summary_statistics fsum (mkAnalyzer prices v2) df).
Proof.
  destruct (analyzer_reads_prices_only (mkAnalyzer prices v1)
              (mkAnalyzer prices v2) eq_refl) as (Hlr & Hw & Hev).
  split_and!; done.
Qed.

End AnalyzerProperties.

(** ** Grouping by event type *)

Lemma unique_from_spec (l : list string) : ∀ seen,
  NoDup (unique_from seen l)
  ∧ ∀ x, x ∈ unique_from seen l ↔ x ∈ l ∧ x ∉ seen.
Proof.
  induction l as [|y l IH]; intros seen; cbn.
  - split; [constructor|]. intros x. rewrite elem_of_nil. tauto.
  - case_decide as Hy.
    + destruct (IH seen) as [Hnd Hin]. split; [done|].
      intros x. rewrite Hin, elem_of_cons.
      split; [tauto|]. intros [[->|Hx] Hseen]; tauto.
    + destruct (IH (y :: seen)) as [Hnd Hin]. split.
      * constructor; [|done]. rewrite Hin, elem_of_cons. tauto.
      * intros x. rewrite !elem_of_cons, Hin, elem_of_cons.
        destruct (decide (x = y)) as [->|Hne]; tauto.
Qed.

Lemma unique_spec (l : list string) :
  NoDup (unique l) ∧ ∀ x, x ∈ unique l ↔ x ∈ l.
Proof.
  destruct (unique_from_spec l []) as [Hnd Hin]. split; [done|].
  intros x. unfold unique. rewrite Hin, elem_of_nil. tauto.
Qed.

Lemma dict_set_fresh {V : Type} (d : list (string * V)) k v :
  k ∉ d.*1 → dict_set d k v = d ++ [(k, v)].
Proof.
  induction d as [|[k' v'] d IH]; cbn; [done|].
  rewrite elem_of_cons. intros Hk.
  case_decide; [tauto|]. f_equal. apply IH. tauto.
Qed.

Lemma bool_index_filter {A : Type} (g : A → bool) (l : list A) :
  bool_index (g <$> l) l = filter (λ x, g x = true) l.
Proof.
  induction l as [|x l IH]; [done|].
  rewrite fmap_cons, filter_cons. cbn [bool_index]. rewrite IH.
  destruct (g x); by case_decide.
Qed.

Lemma count_ratio_bounds k n q :
  k ≤ n → count_ratio k n = Some q → (0 <= q)%Q ∧ (q <= 1)%Q.
Proof.
  intros Hk. destruct n as [|n]; cbn; [done|]. intros [= <-].
  unfold Qle. cbn. lia.
Qed.

Lemma count_positive_le xs : count_positive xs ≤ length xs.
Proof. unfold count_positive. apply length_filter. Qed.

Lemma notna_all_missing xs :
  Forall (λ x, isnan x = true) xs → notna xs = [].
Proof.
  unfold notna. induction 1 as [|x xs Hx _ IH]; [done|].
  rewrite filter_cons. case_decide; [congruence | done].
Qed.

Lemma Series_mean_ignores_missing fsum xs :
  mean_ignoring_missing fsum xs (Series_mean fsum xs).
Proof.
  split; [done|]. intros Hall. unfold Series_mean.
  by rewrite (notna_all_missing _ Hall).
Qed.

Section SummaryProperties.

Variable fsum : list float → float.

Lemma subset_of_spec df ty :
  "event_type" ∈ if_columns df →
  subset_of df ty
  = Ok {| if_columns := if_columns df;
          if_rows := filter (λ row, event_type row.2 = ty) (if_rows df) |}.
Proof.
  intros Hcol. unfold subset_of, impact_column. rewrite decide_True by done.
  cbn. do 2 f_equal.
  rewrite <- list_fmap_compose, bool_index_filter.
  apply list_filter_iff. intros row. cbn. by rewrite bool_decide_eq_true.
Qed.

Lemma summarize_type_spec df summary ty :
  impact_columns ⊆ if_columns df →
  summarize_type fsum df summary ty
  = Ok (dict_set summary ty (summary_of fsum df ty)).
Proof.
  intros Hcols.
  assert (Hin : ∀ c, c ∈ impact_columns → c ∈ if_columns df) by (intros; by apply Hcols).
  unfold summarize_type. rewrite subset_of_spec; cycle 1.
  { apply Hin. unfold impact_columns. rewrite !elem_of_cons. tauto. }
  cbn. unfold impact_column. cbn.
  repeat (rewrite decide_True;
          [cbn | apply Hin; unfold impact_columns; rewrite !elem_of_cons; tauto]).
  unfold summary_of, group_of, ImpactFrame_len. cbn.
  rewrite length_fmap, <- !list_fmap_compose. done.
Qed.

Lemma for_each_summarize df (types : list string) : ∀ acc,
  impact_columns ⊆ if_columns df →
  NoDup types → (∀ ty, ty ∈ types → ty ∉ acc.*1) →
  for_each (summarize_type fsum df) types acc
  = Ok (acc ++ ((λ ty, (ty, summary_of fsum df ty)) <$> types)).
Proof.
  induction types as [|ty types IH]; intros acc Hcols Hnd Hfresh; cbn.
  - by rewrite app_nil_r.
  - rewrite summarize_type_spec by done. cbn.
    apply NoDup_cons in Hnd as [Hty Hnd].
    rewrite dict_set_fresh by (apply Hfresh; left).
    rewrite IH; [by rewrite <- app_assoc | done | done |].
    intros ty' Hty'. rewrite fmap_app, elem_of_app. cbn.
    rewrite elem_of_cons, elem_of_nil.
    intros [Hacc | [-> | []]]; [|done].
    by apply (Hfresh ty'); [right|].
Qed.

(** C8: over a frame of impact records, empty or not,
    [event_summary_statistics] returns
    one entry per distinct [event_type] present, no more and no fewer; each
    entry's [vol_increase_frequency] lies between 0 and 1; each of its four
    means is the mean of the group's values that are not missing, and is
    NaN, without any exception, when all of them are missing. *)
Theorem event_summary_statistics_groups self df :
  impact_columns ⊆ if_columns df →
  ∃ summary,
    event_summary_statistics fsum self df = Ok summary
    ∧ NoDup summary.*1
    ∧ (∀ ty, ty ∈ summary.*1 ↔ ∃ row, row ∈ if_rows df ∧ event_type row.2 = ty)
    ∧ ∀ ty entry, (ty, entry) ∈ summary →
        count entry = length (group_of df ty)
        ∧ (∃ q, vol_increase_frequency entry = Some q
                ∧ (0 <= q)%Q ∧ (q <= 1)%Q)
        ∧ mean_ignoring_missing fsum
            (pre_volatility <$> group_of df ty) (avg_pre_vol entry)
        ∧ mean_ignoring_missing fsum
            (post_volatility <$> group_of df ty) (avg_post_vol entry)
        ∧ mean_ignoring_missing fsum
            (volatility_change <$> group_of df ty) (avg_vol_change entry)
        ∧ mean_ignoring_missing fsum
            (volatility_change_pct <$> group_of df ty)
            (avg_vol_change_pct entry).
Proof.
  intros Hcols.
  pose (types := (λ row : nat * ImpactRecord, event_type row.2) <$> if_rows df).
  destruct (unique_spec types) as [Hnd Hin].
  exists ((λ ty, (ty, summary_of fsum df ty)) <$> unique types).
  assert (Hkeys : ((λ ty, (ty, summary_of fsum df ty)) <$> unique types).*1
                  = unique types).
  { rewrite <- list_fmap_compose. apply list_fmap_id. }
  split_and!.
  - unfold event_summary_statistics, impact_column.
    rewrite decide_True; cycle 1.
    { apply Hcols. unfold impact_columns. rewrite !elem_of_cons. tauto. }
    cbn. fold types. rewrite for_each_summarize; try done.
    intros ty _. apply not_elem_of_nil.
  - by rewrite Hkeys.
  - intros ty. rewrite Hkeys, Hin. unfold types. rewrite list_elem_of_fmap.
    split; intros (row & H1 & H2); exists row; by split.
  - intros ty entry Hentry.
    apply list_elem_of_fmap in Hentry as (ty' & [= -> ->] & Hty').
    apply Hin in Hty'. unfold types in Hty'.
    apply list_elem_of_fmap in Hty' as (row & Hrow & Hmem).
    assert (Hgroup : row.2 ∈ group_of df (event_type row.2)).
    { unfold group_of. apply list_elem_of_fmap. exists row. split; [done|].
      by apply list_elem_of_filter. }
    rewrite <- Hrow in Hgroup.
    split_and!; try apply Series_mean_ignores_missing; [done|].
    cbn. destruct (group_of df ty') as [|r g] eqn:Hg;
      [by apply elem_of_nil in Hgroup|].
    eexists. split; [reflexivity|].
    apply (count_ratio_bounds
             (count_positive (volatility_change <$> r :: g))
             (length (r :: g))); [|reflexivity].
    rewrite <- (length_fmap volatility_change (r :: g)).
    apply count_positive_le.
Qed.

End SummaryProperties.


(* ================================================================== *)
(** * The store model *)

(** ** Frame rules for the store *)

Lemma frames_weaken {A} n (m : M A) (Q R : A → Prop) :
  frames n m Q → (∀ a, Q a → R a) → frames n m R.
Proof.
  intros Hm HQR h Hh. destruct (Hm h Hh) as (H1 & H2 & H3).
  split_and!; try done. destruct (m h).1; auto.
Qed.

Lemma frames_ret {A} n (a : A) (Q : A → Prop) : Q a → frames n (mret a) Q.
Proof. intros HQ h Hh. by split_and!. Qed.

Lemma frames_lift {A} n (r : result A) : frames n (lift r) (λ _, True).
Proof. intros h Hh. cbn. split_and!; try done. by destruct r. Qed.

Lemma frames_alloc n o : frames n (alloc o) (λ l, n ≤ l).
Proof.
  intros h Hh. cbn. split_and!; [|rewrite length_app; lia|done].
  by rewrite take_app_le.
Qed.

Lemma frames_load n l : frames n (load l) (λ _, True).
Proof. intros h Hh. unfold load. by destruct (h !! l). Qed.

Lemma frames_store n l o : n ≤ l → frames n (store l o) (λ _, True).
Proof.
  intros Hl h Hh. unfold store. destruct (h !! l); cbn; [|done].
  split_and!; [|by rewrite length_insert|done].
  by rewrite take_insert_ge.
Qed.

Lemma frames_bind {A B} n (m : M A) (f : A → M B) (Q : A → Prop)
    (R : B → Prop) :
  frames n m Q → (∀ a, Q a → frames n (f a) R) → frames n (m ≫= f) R.
Proof.
  intros Hm Hf h Hh. destruct (Hm h Hh) as (H1 & H2 & H3).
  unfold mbind, M_bind. destruct (m h) as [[a|e] h1]; cbn in *; [|done].
  destruct (Hf a H3 h1) as (H4 & H5 & H6); [lia|].
  split_and!; [congruence | lia | done].
Qed.

Lemma frames_for_each {A} n (body : A → M unit) (xs : list A) :
  (∀ x, frames n (body x) (λ _, True)) →
  frames n (for_each_M body xs) (λ _, True).
Proof.
  intros Hbody. induction xs as [|x xs IH]; cbn.
  - by apply frames_ret.
  - eapply frames_bind; [apply Hbody | by intros _ _].
Qed.

Ltac frames_load_typed :=
  intros; eapply frames_bind; [apply frames_load|];
  intros [] _; first [by apply frames_ret | apply frames_lift].

Lemma frames_load_frame n l : frames n (load_frame l) (λ _, True).
Proof. frames_load_typed. Qed.
Lemma frames_load_series n l : frames n (load_series l) (λ _, True).
Proof. frames_load_typed. Qed.
Lemma frames_load_events n l : frames n (load_events l) (λ _, True).
Proof. frames_load_typed. Qed.
Lemma frames_load_records n l : frames n (load_records l) (λ _, True).
Proof. frames_load_typed. Qed.
Lemma frames_load_impacts n l : frames n (load_impacts l) (λ _, True).
Proof. frames_load_typed. Qed.
Lemma frames_load_summary n l : frames n (load_summary l) (λ _, True).
Proof. frames_load_typed. Qed.

Create HintDb frames.
#[global] Hint Resolve frames_lift frames_alloc frames_load_frame
  frames_load_series frames_load_events frames_load_records
  frames_load_impacts frames_load_summary : frames.

(** One step through a computation: the first action by its rule, the rest
    under the fact the action established. *)
Ltac frames_step :=
  lazymatch goal with
  | |- frames _ (mret _) _ => apply frames_ret; try done
  | |- frames _ (if ?b then _ else _) _ => destruct b
  | |- frames _ (store _ _) _ => apply frames_store; lia
  | |- frames _ (_ ≫= _) _ =>
      eapply frames_bind; [solve [eauto with frames] | intros ? ?]
  | |- frames _ _ (λ _, True) =>
      eapply frames_weaken; [solve [eauto with frames] | done]
  end.

Lemma frames_ewma_step n lam sq_loc var_loc i :
  n ≤ var_loc → frames n (ewma_step_heap lam sq_loc var_loc i) (λ _, True).
Proof. intros Hvar. unfold ewma_step_heap. repeat frames_step. Qed.

Lemma frames_get_estimator ln n price_data lam tp clean :
  frames n (get_estimator_heap ln price_data lam tp clean) (λ l, n ≤ l).
Proof.
  unfold get_estimator_heap. do 7 frames_step.
  eapply frames_bind.
  { apply frames_for_each. intros i. by apply frames_ewma_step. }
  intros _ _. do 3 frames_step. frames_step.
  - frames_step. apply frames_alloc.
  - by apply frames_ret.
Qed.

Section HeapProperties.

Variable ln : float → float.
Variable fsum : list float → float.
Variable to_datetime : string → option Timestamp.

Lemma frames_calculate_log_returns n self :
  frames n (calculate_log_returns_heap ln self) (λ l, n ≤ l).
Proof. unfold calculate_log_returns_heap. do 2 frames_step. apply frames_alloc. Qed.

Lemma frames_realized_volatility_window n self start_date end_date :
  frames n (realized_volatility_window_heap ln fsum self start_date end_date)
         (λ _, True).
Proof.
  unfold realized_volatility_window_heap. frames_step. cbv zeta.
  eapply frames_bind; [apply frames_calculate_log_returns|]. intros lr Hlr.
  repeat frames_step.
Qed.

Lemma frames_analyze_event n self pre post results event :
  n ≤ results →
  frames n (analyze_event_heap ln fsum to_datetime self pre post results event)
         (λ _, True).
Proof.
  intros Hres. unfold analyze_event_heap. do 4 frames_step.
  eapply frames_bind; [apply frames_realized_volatility_window|]. intros v1 _.
  eapply frames_bind; [apply frames_realized_volatility_window|]. intros v2 _.
  repeat frames_step.
Qed.

Lemma frames_event_impact_analysis n self events pre post :
  frames n (event_impact_analysis_heap ln fsum to_datetime self events pre post)
         (λ l, n ≤ l).
Proof.
  unfold event_impact_analysis_heap. do 2 frames_step.
  eapply frames_bind.
  { apply frames_for_each. intros ev. by apply frames_analyze_event. }
  intros _ _. do 4 frames_step. apply frames_alloc.
Qed.

Lemma frames_summarize_type n df summary ty :
  n ≤ summary → frames n (summarize_type_heap fsum df summary ty) (λ _, True).
Proof. intros Hs. unfold summarize_type_heap. repeat frames_step. Qed.

Lemma frames_event_summary_statistics n self df :
  frames n (event_summary_statistics_heap fsum self df) (λ l, n ≤ l).
Proof.
  unfold event_summary_statistics_heap. do 3 frames_step.
  eapply frames_bind.
  { apply frames_for_each. intros ty. by apply frames_summarize_type. }
  intros _ _. by apply frames_ret.
Qed.

Lemma frames_unchanged {A} (m : M A) (Q : A → Prop) h :
  frames (length h) m Q → unchanged h (m h).2.
Proof.
  intros Hm l o Hl. destruct (Hm h) as (Htake & Hlen & _); [done|].
  rewrite (take_ge h) in Htake by done.
  rewrite <- Htake in Hl. apply lookup_take_Some in Hl. tauto.
Qed.

End HeapProperties.

(** ** The store model computes what the value model computes *)

Lemma run_bind_ok {A B} (m : M A) (f : A → M B) h a h' :
  m h = (Ok a, h') → (m ≫= f) h = f a h'.
Proof. intros H. unfold mbind, M_bind. by rewrite H. Qed.

Lemma run_bind_err {A B} (m : M A) (f : A → M B) h e h' :
  m h = (Err e, h') → (m ≫= f) h = (Err e, h').
Proof. intros H. unfold mbind, M_bind. by rewrite H. Qed.

Lemma run_bind_lift {A B} (r : result A) (f : A → M B) h :
  (lift r ≫= f) h = match r with Ok a => f a h | Err e => (Err e, h) end.
Proof. by destruct r. Qed.

Lemma run_load_series h l s :
  h !! l = Some (OSeries s) → load_series l h = (Ok s, h).
Proof.
  intros H. unfold load_series.
  rewrite (run_bind_ok _ _ h (OSeries s) h); [done|].
  unfold load. by rewrite H.
Qed.

Lemma run_load_frame h l df :
  h !! l = Some (OFrame df) → load_frame l h = (Ok df, h).
Proof.
  intros H. unfold load_frame.
  rewrite (run_bind_ok _ _ h (OFrame df) h); [done|].
  unfold load. by rewrite H.
Qed.

Lemma run_store h l o o' :
  h !! l = Some o' → store l o h = (Ok (), <[l := o]> h).
Proof. intros H. unfold store. by rewrite H. Qed.

(** One pass of the loop body on the store is one pass on the values: it
    reads the two Series and overwrites at most the cell of [ewma_var]. *)
Lemma ewma_step_heap_sim lam h sq_loc var_loc sq var i :
  h !! sq_loc = Some (OSeries sq) → h !! var_loc = Some (OSeries var) →
  ewma_step_heap lam sq_loc var_loc i h =
    match ewma_step lam sq var i with
    | Ok var' => (Ok (), <[var_loc := OSeries var']> h)
    | Err e => (Err e, h)
    end.
Proof.
  intros Hsq Hvar. unfold ewma_step_heap, ewma_step.
  rewrite (run_bind_ok _ _ _ _ _ (run_load_series _ _ _ Hsq)), run_bind_lift.
  destruct (iloc sq (i - 1)) as [ps|]; cbn; [|done].
  destruct (isnan ps); [by rewrite list_insert_id|].
  rewrite (run_bind_ok _ _ _ _ _ (run_load_series _ _ _ Hvar)), run_bind_lift.
  destruct (iloc var (i - 1)) as [pv|]; cbn; [|done].
  destruct (isnan pv); [by rewrite list_insert_id|].
  rewrite (run_bind_ok _ _ _ _ _ (run_load_series _ _ _ Hsq)), run_bind_lift.
  destruct (iloc sq i) as [cs|]; cbn; [|done].
  rewrite (run_bind_ok _ _ _ _ _ (run_load_series _ _ _ Hvar)), run_bind_lift.
  destruct (iloc_set var i _) as [var'|]; cbn; [|done].
  by rewrite (run_store _ _ _ _ Hvar).
Qed.

Lemma ewma_loop_heap_sim lam sq_loc var_loc sq idxs : ∀ h var,
  sq_loc ≠ var_loc →
  h !! sq_loc = Some (OSeries sq) → h !! var_loc = Some (OSeries var) →
  match for_each (ewma_step lam sq) idxs var with
  | Ok var' =>
      for_each_M (ewma_step_heap lam sq_loc var_loc) idxs h
      = (Ok (), <[var_loc := OSeries var']> h)
  | Err e =>
      (for_each_M (ewma_step_heap lam sq_loc var_loc) idxs h).1 = Err e
  end.
Proof.
  induction idxs as [|i idxs IH]; intros h var Hne Hsq Hvar; cbn.
  - by rewrite list_insert_id.
  - pose proof (ewma_step_heap_sim lam h sq_loc var_loc sq var i Hsq Hvar)
      as Hstep.
    destruct (ewma_step lam sq var i) as [var1|e]; cbn.
    + specialize (IH (<[var_loc := OSeries var1]> h) var1 Hne).
      rewrite list_lookup_insert_ne in IH by done.
      rewrite list_lookup_insert_eq in IH by (by eapply lookup_lt_Some).
      specialize (IH Hsq eq_refl).
      rewrite (run_bind_ok _ _ _ _ _ Hstep).
      destruct (for_each (ewma_step lam sq) idxs var1); [|done].
      by rewrite IH, list_insert_insert_eq.
    + by rewrite (run_bind_err _ _ _ _ _ Hstep).
Qed.


(** [get_estimator] on the store returns a reference to the Series that
    [get_estimator] on values returns, and raises what it raises. *)
Lemma get_estimator_heap_refines ln h price_data df lam tp clean :
  h !! price_data = Some (OFrame df) →
  match get_estimator ln df lam tp clean with
  | Ok s =>
      ∃ l, (get_estimator_heap ln price_data lam tp clean h).1 = Ok l
           ∧ (get_estimator_heap ln price_data lam tp clean h).2 !! l
             = Some (OSeries s)
  | Err e => (get_estimator_heap ln price_data lam tp clean h).1 = Err e
  end.
Proof.
  intros Hdf. unfold get_estimator, get_estimator_heap.
  rewrite (run_bind_ok _ _ _ _ _ (run_load_frame _ _ _ Hdf)), run_bind_lift.
  destruct (getitem df "Close") as [close|]; cbn [mbind result_bind]; [|done].
  fold (squared_returns_of ln close).
  set (sq := squared_returns_of ln close).
  set (h1 := h ++ [OSeries (log_returns_of ln close)]).
  set (h2 := h1 ++ [OSeries sq]).
  set (h3 := h2 ++ [OSeries sq]).
  assert (H1 : h1 !! length h = Some (OSeries (log_returns_of ln close)))
    by apply list_lookup_middle, eq_refl.
  assert (H2 : h3 !! length h1 = Some (OSeries sq)).
  { unfold h3. rewrite lookup_app_l by (unfold h2; rewrite length_app; cbn; lia).
    by apply list_lookup_middle. }
  assert (H3 : h3 !! length h2 = Some (OSeries sq))
    by apply list_lookup_middle, eq_refl.
  rewrite (run_bind_ok _ _ h (length h) h1) by done.
  rewrite (run_bind_ok _ _ _ _ _ (run_load_series _ _ _ H1)).
  rewrite (run_bind_ok _ _ h1 (length h1) h2) by done.
  rewrite (run_bind_ok _ _ h2 sq h2)
    by (apply run_load_series, list_lookup_middle, eq_refl).
  rewrite (run_bind_ok _ _ h2 (length h2) h3) by done.
  assert (Hne : length h1 ≠ length h2)
    by (unfold h2; rewrite length_app; cbn; lia).
  pose proof (ewma_loop_heap_sim lam (length h1) (length h2) sq
                (range 1 (Series_len sq)) h3 sq Hne H2 H3) as Hloop.
  unfold ewma_variance, Series_copy.
  destruct (for_each (ewma_step lam sq) (range 1 (Series_len sq)) sq)
    as [var|e]; cbn [mbind result_bind].
  - rewrite (run_bind_ok _ _ _ _ _ Hloop).
    set (h4 := <[length h2 := OSeries var]> h3).
    assert (H4 : h4 !! length h2 = Some (OSeries var))
      by (apply list_lookup_insert_eq; by eapply lookup_lt_Some).
    rewrite (run_bind_ok _ _ _ _ _ (run_load_series _ _ _ H4)), run_bind_lift.
    destruct (math_sqrt tp) as [ann|]; cbn [mbind result_bind]; [|done].
    set (res := Series_scale (Series_apply PrimFloat.sqrt var) ann).
    rewrite (run_bind_ok _ _ h4 (length h4) (h4 ++ [OSeries res])) by done.
    destruct clean.
    + rewrite (run_bind_ok _ _ (h4 ++ [OSeries res]) res (h4 ++ [OSeries res]))
        by (apply run_load_series, list_lookup_middle, eq_refl).
      eexists. split; [reflexivity|]. cbn. by apply list_lookup_middle.
    + eexists. split; [reflexivity|]. cbn. by apply list_lookup_middle.
  - destruct (for_each_M _ _ h3) as [[[]|e'] h4] eqn:Hrun; cbn in Hloop;
      [done|]. injection Hloop as ->.
    by rewrite (run_bind_err _ _ _ _ _ Hrun).
Qed.

Lemma run_load_events h l evs :
  h !! l = Some (OEvents evs) → load_events l h = (Ok evs, h).
Proof.
  intros H. unfold load_events.
  rewrite (run_bind_ok _ _ h (OEvents evs) h); [done|].
  unfold load. by rewrite H.
Qed.

Lemma run_load_records h l rs :
  h !! l = Some (ORecords rs) → load_records l h = (Ok rs, h).
Proof.
  intros H. unfold load_records.
  rewrite (run_bind_ok _ _ h (ORecords rs) h); [done|].
  unfold load. by rewrite H.
Qed.

Lemma run_load_impacts h l f :
  h !! l = Some (OImpacts f) → load_impacts l h = (Ok f, h).
Proof.
  intros H. unfold load_impacts.
  rewrite (run_bind_ok _ _ h (OImpacts f) h); [done|].
  unfold load. by rewrite H.
Qed.

Lemma run_load_summary h l d :
  h !! l = Some (OSummary d) → load_summary l h = (Ok d, h).
Proof.
  intros H. unfold load_summary.
  rewrite (run_bind_ok _ _ h (OSummary d) h); [done|].
  unfold load. by rewrite H.
Qed.

Section HeapRefinement.

Variable ln : float → float.
Variable fsum : list float → float.
Variable to_datetime : string → option Timestamp.

Lemma calculate_log_returns_heap_run h self df v :
  h !! price_data_ref self = Some (OFrame df) →
  calculate_log_returns_heap ln self h =
    match calculate_log_returns ln (mkAnalyzer df v) with
    | Ok s => (Ok (length h), h ++ [OSeries s])
    | Err e => (Err e, h)
    end.
Proof.
  intros Hdf. unfold calculate_log_returns_heap, calculate_log_returns.
  cbn [price_data].
  rewrite (run_bind_ok _ _ _ _ _ (run_load_frame _ _ _ Hdf)), run_bind_lift.
  by destruct (getitem df "Close").
Qed.

(** The window volatility on the store is the one on values; the store only
    grows. *)
Lemma realized_volatility_window_heap_run h self df v start_date end_date :
  h !! price_data_ref self = Some (OFrame df) →
  ∃ k, realized_volatility_window_heap ln fsum self start_date end_date h
       = (realized_volatility_window ln fsum (mkAnalyzer df v)
            start_date end_date, h ++ k).
Proof.
  intros Hdf.
  pose proof (calculate_log_returns_heap_run h self df v Hdf) as Hlr.
  unfold realized_volatility_window_heap, realized_volatility_window.
  cbn [price_data].
  rewrite (run_bind_ok _ _ _ _ _ (run_load_frame _ _ _ Hdf)). cbv zeta.
  destruct (calculate_log_returns ln (mkAnalyzer df v)) as [lr|e];
    cbn [mbind result_bind].
  - rewrite (run_bind_ok _ _ _ _ _ Hlr).
    set (h1 := h ++ [OSeries lr]).
    rewrite (run_bind_ok _ _ h1 lr h1)
      by (apply run_load_series, list_lookup_middle, eq_refl).
    set (sel := bool_index (window_mask (df_index df) start_date end_date) lr).
    rewrite (run_bind_ok _ _ h1 (length h1) (h1 ++ [OSeries sel])) by done.
    rewrite (run_bind_ok _ _ (h1 ++ [OSeries sel]) sel (h1 ++ [OSeries sel]))
      by (apply run_load_series, list_lookup_middle, eq_refl).
    exists [OSeries lr; OSeries sel]. unfold h1. rewrite <- app_assoc. cbn.
    by case_match.
  - exists []. rewrite app_nil_r. by rewrite (run_bind_err _ _ _ _ _ Hlr).
Qed.

(** One pass of the loop over events: the record the value model appends is
    the record appended to the [results] object; nothing else is written. *)
Lemma analyze_event_heap_run h self df v pre post results acc event :
  h !! price_data_ref self = Some (OFrame df) →
  h !! results = Some (ORecords acc) →
  match analyze_event ln fsum to_datetime (mkAnalyzer df v) pre post acc event
  with
  | Ok acc' =>
      ∃ k, analyze_event_heap ln fsum to_datetime self pre post results event h
           = (Ok (), <[results := ORecords acc']> (h ++ k))
  | Err e =>
      (analyze_event_heap ln fsum to_datetime self pre post results event h).1
      = Err e
  end.
Proof.
  intros Hdf Hres. unfold analyze_event, analyze_event_heap.
  rewrite run_bind_lift.
  destruct (dict_getitem event "date") as [d|]; cbn [mbind result_bind]; [|done].
  rewrite run_bind_lift.
  destruct (pd_to_datetime to_datetime d) as [t|]; cbn [mbind result_bind];
    [|done].
  rewrite run_bind_lift.
  destruct (window_start t pre) as [pre_start|]; cbn [mbind result_bind];
    [|done].
  rewrite run_bind_lift.
  destruct (window_end t post) as [post_end|]; cbn [mbind result_bind];
    [|done].
  destruct (realized_volatility_window_heap_run h self df v
              pre_start t Hdf) as [k1 Hpre].
  assert (Hdf1 : (h ++ k1) !! price_data_ref self = Some (OFrame df))
    by (by apply lookup_app_l_Some).
  destruct (realized_volatility_window_heap_run (h ++ k1) self df v
              t post_end Hdf1) as [k2 Hpost].
  destruct (realized_volatility_window ln fsum (mkAnalyzer df v)
              pre_start t) as [v1|e1]; cbn [mbind result_bind].
  - rewrite (run_bind_ok _ _ _ _ _ Hpre).
    destruct (realized_volatility_window ln fsum (mkAnalyzer df v)
                t post_end) as [v2|e2]; cbn [mbind result_bind].
    + rewrite (run_bind_ok _ _ _ _ _ Hpost), run_bind_lift.
      destruct (dict_getitem event "name") as [nm|]; cbn [mbind result_bind];
        [|done].
      assert (Hres2 : ((h ++ k1) ++ k2) !! results = Some (ORecords acc))
        by (by do 2 apply lookup_app_l_Some).
      rewrite (run_bind_ok _ _ _ _ _ (run_load_records _ _ _ Hres2)).
      rewrite (run_store _ _ _ _ Hres2).
      exists (k1 ++ k2). by rewrite app_assoc.
    + by rewrite (run_bind_err _ _ _ _ _ Hpost).
  - by rewrite (run_bind_err _ _ _ _ _ Hpre).
Qed.

Lemma analyze_events_heap_run self df v pre post results events : ∀ h acc,
  price_data_ref self ≠ results →
  h !! price_data_ref self = Some (OFrame df) →
  h !! results = Some (ORecords acc) →
  match for_each (analyze_event ln fsum to_datetime (mkAnalyzer df v) pre post)
                 events acc
  with
  | Ok acc' =>
      ∃ k, for_each_M (analyze_event_heap ln fsum to_datetime self pre post
                                           results) events h
           = (Ok (), <[results := ORecords acc']> (h ++ k))
  | Err e =>
      (for_each_M (analyze_event_heap ln fsum to_datetime self pre post results)
                  events h).1 = Err e
  end.
Proof.
  induction events as [|ev events IH]; intros h acc Hne Hdf Hres; cbn.
  - exists []. by rewrite app_nil_r, list_insert_id.
  - pose proof (analyze_event_heap_run h self df v pre post results acc ev
                  Hdf Hres) as Hstep.
    destruct (analyze_event ln fsum to_datetime (mkAnalyzer df v) pre post
                acc ev) as [acc1|e]; cbn [mbind result_bind].
    + destruct Hstep as [k1 Hstep]. rewrite (run_bind_ok _ _ _ _ _ Hstep).
      assert (Hlt : results < length (h ++ k1))
        by (eapply lookup_lt_Some; by apply lookup_app_l_Some).
      specialize (IH (<[results := ORecords acc1]> (h ++ k1)) acc1 Hne).
      rewrite list_lookup_insert_ne in IH by done.
      rewrite list_lookup_insert_eq in IH by done.
      specialize (IH (lookup_app_l_Some _ _ _ _ Hdf) eq_refl).
      destruct (for_each _ events acc1) as [acc2|e2]; [|done].
      destruct IH as [k2 ->]. exists (k1 ++ k2).
      rewrite <- insert_app_l by done.
      by rewrite list_insert_insert_eq, app_assoc.
    + destruct (analyze_event_heap _ _ _ _ _ _ _ _ h) as [[[]|e'] h'] eqn:Hrun;
        cbn in Hstep; [done|]. injection Hstep as ->.
      by rewrite (run_bind_err _ _ _ _ _ Hrun).
Qed.

(** [event_impact_analysis] on the store returns a reference to the frame
    that [event_impact_analysis] on values returns, and raises what it
    raises. *)
Lemma event_impact_analysis_heap_refines h self df v events evs pre post :
  h !! price_data_ref self = Some (OFrame df) →
  h !! events = Some (OEvents evs) →
  match event_impact_analysis ln fsum to_datetime (mkAnalyzer df v) evs pre post
  with
  | Ok frame =>
      ∃ l, (event_impact_analysis_heap ln fsum to_datetime self events
              pre post h).1 = Ok l
           ∧ (event_impact_analysis_heap ln fsum to_datetime self events
                pre post h).2 !! l = Some (OImpacts frame)
  | Err e =>
      (event_impact_analysis_heap ln fsum to_datetime self events pre post h).1
      = Err e
  end.
Proof.
  intros Hdf Hev. unfold event_impact_analysis, event_impact_analysis_heap.
  set (h1 := h ++ [ORecords []]).
  rewrite (run_bind_ok _ _ h (length h) h1) by done.
  assert (Hev1 : h1 !! events = Some (OEvents evs))
    by (by apply lookup_app_l_Some).
  rewrite (run_bind_ok _ _ _ _ _ (run_load_events _ _ _ Hev1)).
  assert (Hne : price_data_ref self ≠ length h)
    by (apply lookup_lt_Some in Hdf; lia).
  pose proof (analyze_events_heap_run self df v pre post (length h) evs h1 []
                Hne (lookup_app_l_Some _ _ _ _ Hdf)
                (list_lookup_middle _ _ _ _ eq_refl)) as Hloop.
  destruct (for_each _ evs []) as [rs|e]; cbn [mbind result_bind].
  - destruct Hloop as [k Hloop]. rewrite (run_bind_ok _ _ _ _ _ Hloop).
    set (h2 := <[length h := ORecords rs]> (h1 ++ k)).
    assert (Hrs : h2 !! length h = Some (ORecords rs)).
    { apply list_lookup_insert_eq. unfold h1.
      rewrite !length_app. cbn. lia. }
    rewrite (run_bind_ok _ _ _ _ _ (run_load_records _ _ _ Hrs)).
    set (fr := DataFrame_of_records rs).
    rewrite (run_bind_ok _ _ h2 (length h2) (h2 ++ [OImpacts fr])) by done.
    rewrite (run_bind_ok _ _ (h2 ++ [OImpacts fr]) fr (h2 ++ [OImpacts fr]))
      by (apply run_load_impacts, list_lookup_middle, eq_refl).
    rewrite run_bind_lift.
    destruct (sort_values_event_date fr) as [sorted|]; [|done].
    eexists. split; [reflexivity|]. cbn. by apply list_lookup_middle.
  - destruct (for_each_M _ evs h1) as [[[]|e'] h'] eqn:Hrun; cbn in Hloop;
      [done|]. injection Hloop as ->.
    by rewrite (run_bind_err _ _ _ _ _ Hrun).
Qed.

End HeapRefinement.

Section SummaryRefinement.

Variable fsum : list float → float.

Lemma summarize_type_heap_sim h df_loc summary frame acc ty :
  h !! df_loc = Some (OImpacts frame) →
  h !! summary = Some (OSummary acc) →
  summarize_type_heap fsum df_loc summary ty h =
    match summarize_type fsum frame acc ty with
    | Ok acc' => (Ok (), <[summary := OSummary acc']> h)
    | Err e => (Err e, h)
    end.
Proof.
  intros Hdf Hsum. unfold summarize_type_heap.
  rewrite (run_bind_ok _ _ _ _ _ (run_load_impacts _ _ _ Hdf)).
  rewrite (run_bind_ok _ _ _ _ _ (run_load_summary _ _ _ Hsum)), run_bind_lift.
  destruct (summarize_type fsum frame acc ty); [|done].
  by rewrite (run_store _ _ _ _ Hsum).
Qed.

Lemma summarize_types_heap_sim df_loc summary frame types : ∀ h acc,
  df_loc ≠ summary →
  h !! df_loc = Some (OImpacts frame) →
  h !! summary = Some (OSummary acc) →
  match for_each (summarize_type fsum frame) types acc with
  | Ok acc' =>
      for_each_M (summarize_type_heap fsum df_loc summary) types h
      = (Ok (), <[summary := OSummary acc']> h)
  | Err e =>
      (for_each_M (summarize_type_heap fsum df_loc summary) types h).1 = Err e
  end.
Proof.
  induction types as [|ty types IH]; intros h acc Hne Hdf Hsum; cbn.
  - by rewrite list_insert_id.
  - pose proof (summarize_type_heap_sim h df_loc summary frame acc ty Hdf Hsum)
      as Hstep.
    destruct (summarize_type fsum frame acc ty) as [acc1|e]; cbn.
    + specialize (IH (<[summary := OSummary acc1]> h) acc1 Hne).
      rewrite list_lookup_insert_ne in IH by done.
      rewrite list_lookup_insert_eq in IH by (by eapply lookup_lt_Some).
      specialize (IH Hdf eq_refl).
      rewrite (run_bind_ok _ _ _ _ _ Hstep).
      destruct (for_each (summarize_type fsum frame) types acc1); [|done].
      by rewrite IH, list_insert_insert_eq.
    + by rewrite (run_bind_err _ _ _ _ _ Hstep).
Qed.

(** [event_summary_statistics] on the store returns a reference to the dict
    that [event_summary_statistics] on values returns, and raises what it
    raises. *)
Lemma event_summary_statistics_heap_refines h self self' df_loc frame :
  h !! df_loc = Some (OImpacts frame) →
  match event_summary_statistics fsum self' frame with
  | Ok summary =>
      ∃ l, (event_summary_statistics_heap fsum self df_loc h).1 = Ok l
           ∧ (event_summary_statistics_heap fsum self df_loc h).2 !! l
             = Some (OSummary summary)
  | Err e => (event_summary_statistics_heap fsum self df_loc h).1 = Err e
  end.
Proof.
  intros Hdf. unfold event_summary_statistics, event_summary_statistics_heap.
  set (h1 := h ++ [OSummary []]).
  rewrite (run_bind_ok _ _ h (length h) h1) by done.
  assert (Hdf1 : h1 !! df_loc = Some (OImpacts frame))
    by (by apply lookup_app_l_Some).
  rewrite (run_bind_ok _ _ _ _ _ (run_load_impacts _ _ _ Hdf1)), run_bind_lift.
  destruct (impact_column frame "event_type" event_type) as [types|];
    cbn [mbind result_bind]; [|done].
  assert (Hne : df_loc ≠ length h) by (apply lookup_lt_Some in Hdf; lia).
  pose proof (summarize_types_heap_sim df_loc (length h) frame (unique types)
                h1 [] Hne Hdf1 (list_lookup_middle _ _ _ _ eq_refl)) as Hloop.
  destruct (for_each _ (unique types) []) as [summary|e].
  - rewrite (run_bind_ok _ _ _ _ _ Hloop).
    eexists. split; [reflexivity|]. cbn.
    apply list_lookup_insert_eq. unfold h1. rewrite length_app. cbn. lia.
  - destruct (for_each_M _ (unique types) h1) as [[[]|e'] h'] eqn:Hrun;
      cbn in Hloop; [done|]. injection Hloop as ->.
    by rewrite (run_bind_err _ _ _ _ _ Hrun).
Qed.

End SummaryRefinement.

(** ** What the EWMA scan writes *)

Lemma writes_only_ret {A} v (a : A) : writes_only v (mret a : M A).
Proof. by intros h l _. Qed.

Lemma writes_only_lift {A} v (r : result A) : writes_only v (lift r).
Proof. by intros h l _. Qed.

Lemma writes_only_bind {A B} v (m : M A) (f : A → M B) :
  writes_only v m → (∀ a, writes_only v (f a)) → writes_only v (m ≫= f).
Proof.
  intros Hm Hf h l Hl. specialize (Hm h l Hl).
  unfold mbind, M_bind. destruct (m h) as [[a|e] h1]; cbn in *; [|done].
  by rewrite (Hf a h1 l Hl).
Qed.

Lemma writes_only_load_series v l : writes_only v (load_series l).
Proof.
  apply writes_only_bind.
  - intros h l' _. unfold load. by destruct (h !! l).
  - intros []; first [apply writes_only_ret | apply writes_only_lift].
Qed.

Lemma writes_only_store v o : writes_only v (store v o).
Proof.
  intros h l Hl. unfold store. destruct (h !! v); cbn; [|done].
  by rewrite list_lookup_insert_ne.
Qed.

Lemma writes_only_for_each {A} v (body : A → M unit) xs :
  (∀ x, writes_only v (body x)) → writes_only v (for_each_M body xs).
Proof.
  intros Hbody. induction xs as [|x xs IH]; cbn.
  - apply writes_only_ret.
  - apply writes_only_bind; [apply Hbody | by intros _].
Qed.

Lemma ewma_step_heap_writes lam sq_loc var_loc i :
  writes_only var_loc (ewma_step_heap lam sq_loc var_loc i).
Proof.
  unfold ewma_step_heap.
  repeat first
    [ apply writes_only_ret | apply writes_only_lift
    | apply writes_only_load_series | apply writes_only_store
    | apply writes_only_bind; [|intros ?]
    | match goal with |- writes_only _ (if ?b then _ else _) => destruct b end ].
Qed.

(** C9: no operation changes an object it was handed. From any store, after
    [get_estimator], [calculate_log_returns], [realized_volatility_window],
    [event_impact_analysis] or [event_summary_statistics] has returned or
    raised, every object the store held before the call (the price frame,
    the volatility series, the events, the impact records) is still there
    unchanged; and the EWMA scan writes into no cell but that of its own
    copy, so the squared returns it reads stay as they were. *)
Theorem operations_leave_inputs_unchanged (ln : float → float)
    (fsum : list float → float) (to_datetime : string → option Timestamp)
    (h : list pyobj) :
  (∀ price_data lambda_param trading_periods clean,
     unchanged h
       (get_estimator_heap ln price_data lambda_param trading_periods clean h).2)
  ∧ (∀ self, unchanged h (calculate_log_returns_heap ln self h).2)
  ∧ (∀ self start_date end_date,
       unchanged h
         (realized_volatility_window_heap ln fsum self start_date end_date h).2)
  ∧ (∀ self events pre post,
       unchanged h
         (event_impact_analysis_heap ln fsum to_datetime self events
            pre post h).2)
  ∧ (∀ self event_impacts_df,
       unchanged h
         (event_summary_statistics_heap fsum self event_impacts_df h).2)
  ∧ (∀ lambda_param squared_returns ewma_var indices,
       writes_only ewma_var
         (for_each_M (ewma_step_heap lambda_param squared_returns ewma_var)
                     indices)).
Proof.
  split_and!; intros.
  - eapply frames_unchanged, frames_get_estimator.
  - eapply frames_unchanged, frames_calculate_log_returns.
  - eapply frames_unchanged, frames_realized_volatility_window.
  - eapply frames_unchanged, frames_event_impact_analysis.
  - eapply frames_unchanged, frames_event_summary_statistics.
  - apply writes_only_for_each. intros i. apply ewma_step_heap_writes.
Qed.

(* ================================================================== *)
(** * The theorems at concrete inputs *)

(** A window holding the single trading day 2024-01-15. *)
Lemma realized_volatility_window_short_witness :
  ∃ lr,
    calculate_log_returns log_model sample_analyzer = Ok lr
    ∧ length (filter (λ p, in_window 1705276800000000000
                             1705276800000000000 p.1 = true) lr) < 2
    ∧ realized_volatility_window log_model sum_left sample_analyzer
        1705276800000000000 1705276800000000000 = Ok NaN.
Proof.
  eexists. split; [reflexivity|]. split; [vm_compute; lia|].
  eapply (realized_volatility_window_short log_model sum_left sample_analyzer);
    [reflexivity | vm_compute; lia].
Defined.

(** With [pre_window_days = 0] and [post_window_days = -3] the analysis
    returns two records instead of failing with [InvalidParameterError]: both
    windows are too short, so every volatility figure is NaN. *)
Lemma event_impact_analysis_accepts_nonpositive_windows :
  event_impact_analysis log_model sum_left parse_iso_date sample_analyzer
    sample_events 0 (-3)
  = Ok {| if_columns := impact_columns;
          if_rows :=
            [ (1, mkImpact 1704844800000000000 "FOMC Meeting" "unknown"
                     nan nan nan nan 0 (-3));
              (0, mkImpact 1705276800000000000 "CPI Release" "inflation"
                     nan nan nan nan 0 (-3)) ] |}.
Proof. vm_compute. reflexivity. Qed.

(** A negative and a zero day count, both within the limits of the date
    arithmetic. *)
Lemma event_impact_analysis_no_window_check_witness :
  sample_events ≠ []
  ∧ Forall (λ ev, well_formed_event parse_iso_date ev = true) sample_events
  ∧ Forall (λ ev, windows_ok parse_iso_date (-1) 0 ev = true) sample_events
  ∧ ∃ df,
      event_impact_analysis log_model sum_left parse_iso_date sample_analyzer
        sample_events (-1) 0 = Ok df
      ∧ length (if_rows df) = length sample_events.
Proof.
  split; [discriminate|]. split; [repeat constructor|].
  split; [repeat constructor|].
  eapply (event_impact_analysis_no_window_check log_model sum_left
            parse_iso_date sample_analyzer sample_events (-1) 0);
    [reflexivity | discriminate | repeat constructor | repeat constructor].
Defined.

Lemma event_impact_analysis_window_fields_witness :
  ∃ df,
    event_impact_analysis log_model sum_left parse_iso_date sample_analyzer
      sample_events 30 10 = Ok df
    ∧ "pre_window_days" ∈ if_columns df
    ∧ "post_window_days" ∈ if_columns df
    ∧ impact_columns ⊆ if_columns df
    ∧ Forall (λ row, pre_window_days row.2 = 30%Z
                     ∧ post_window_days row.2 = 10%Z) (if_rows df).
Proof.
  eexists. split; [vm_compute; reflexivity|].
  apply (event_impact_analysis_window_fields log_model sum_left parse_iso_date
           sample_analyzer sample_events 30 10).
  vm_compute. reflexivity.
Defined.

Lemma event_summary_statistics_groups_witness :
  impact_columns ⊆ if_columns sample_impacts
  ∧ if_rows sample_impacts ≠ []
  ∧ ∃ summary,
      event_summary_statistics sum_left sample_analyzer sample_impacts
      = Ok summary
      ∧ summary.*1 = ["unknown"; "inflation"]
      ∧ NoDup summary.*1.
Proof.
  split; [done|]. split; [discriminate|].
  destruct (event_summary_statistics_groups sum_left sample_analyzer
              sample_impacts) as (summary & Hsum & Hnd & _); [done|].
  exists summary. split; [exact Hsum|]. split; [|exact Hnd].
  vm_compute in Hsum. by injection Hsum as <-.
Defined.

(** The limit of [timedelta]: a thousand million days are refused at the
    first event, 999999999 days pass [timedelta] and are refused by the
    date arithmetic. *)
Example event_impact_analysis_overflow :
  event_impact_analysis log_model sum_left parse_iso_date sample_analyzer
    sample_events 1000000000 7
  = Err (OverflowError "days; must have magnitude <= 999999999")
  ∧ timedelta 999999999 = Ok 86399999913600000000000%Z
  ∧ window_in_range 999999999 7 1705276800000000000 = false
  ∧ window_in_range 7 (-999999999) 1705276800000000000 = false
  ∧ window_in_range 100000 100000 1705276800000000000 = false
  ∧ window_in_range 80000 80000 1705276800000000000 = true.
Proof. repeat split; vm_compute; reflexivity. Qed.

(** The store model on a store holding one price frame: the estimator
    returns a reference to a new Series and cell 0 still holds the frame. *)
Example get_estimator_heap_run :
  (get_estimator_heap log_model 0 0.94 252 true [OFrame flat_prices]).1 = Ok 5
  ∧ (get_estimator_heap log_model 0 0.94 252 true [OFrame flat_prices]).2 !! 5
    = Some (OSeries (zip (drop 1 three_days) [0; 0]%float))
  ∧ (get_estimator_heap log_model 0 0.94 252 true [OFrame flat_prices]).2 !! 0
    = Some (OFrame flat_prices).
Proof. repeat split; vm_compute; reflexivity. Qed.

(** The analysis on a store holding the prices, a volatility series and the
    events: the three objects are unchanged and the result is a new frame. *)
Example event_impact_analysis_heap_run :
  take 3 (event_impact_analysis_heap log_model sum_left parse_iso_date
            (mkAnalyzerRef 0 1) 2 7 7
            [OFrame sample_prices; OSeries []; OEvents sample_events]).2
  = [OFrame sample_prices; OSeries []; OEvents sample_events]
  ∧ (event_impact_analysis_heap log_model sum_left parse_iso_date
       (mkAnalyzerRef 0 1) 2 7 7
       [OFrame sample_prices; OSeries []; OEvents sample_events]).1 = Ok 13.
Proof. split; vm_compute; reflexivity. Qed.

(* ================================================================== *)
(** * Facts on doubles *)

Lemma Prim2SF_nan (x : float) : Prim2SF x = S754_nan → x = NaN.
Proof. intros H. apply Prim2SF_inj. by rewrite H. Qed.

Lemma SFeqb_refl (f : spec_float) : SFeqb f f = false → f = S754_nan.
Proof.
  destruct f as [s|s| |s m e]; try done.
  - by destruct s.
  - unfold SFeqb, SFcompare.
    rewrite Z.compare_refl, Pos.compare_cont_refl. by destruct s.
Qed.

(** [np.isnan] holds of NaN only. *)
Lemma isnan_true (x : float) : isnan x = true → x = NaN.
Proof.
  unfold isnan, is_nan. rewrite FloatAxioms.eqb_spec. intros H.
  apply Prim2SF_nan, SFeqb_refl. by destruct (SFeqb _ _).
Qed.

Lemma div_nan_r (x : float) : (x / NaN)%float = NaN.
Proof.
  apply Prim2SF_nan. rewrite FloatAxioms.div_spec. change (Prim2SF NaN) with S754_nan.
  by destruct (Prim2SF x).
Qed.

Lemma div_nan_l (x : float) : (NaN / x)%float = NaN.
Proof.
  apply Prim2SF_nan. rewrite FloatAxioms.div_spec. by change (Prim2SF NaN) with S754_nan.
Qed.

Lemma sub_nan_r (x : float) : (x - NaN)%float = NaN.
Proof.
  apply Prim2SF_nan. rewrite FloatAxioms.sub_spec. change (Prim2SF NaN) with S754_nan.
  by destruct (Prim2SF x).
Qed.

Lemma sub_nan_l (x : float) : (NaN - x)%float = NaN.
Proof.
  apply Prim2SF_nan. rewrite FloatAxioms.sub_spec. by change (Prim2SF NaN) with S754_nan.
Qed.

Lemma mul_nan_l (x : float) : (NaN * x)%float = NaN.
Proof.
  apply Prim2SF_nan. rewrite FloatAxioms.mul_spec. by change (Prim2SF NaN) with S754_nan.
Qed.

Lemma binary_round_aux_sign sx mx ex lx :
  sf_not_negative (binary_round_aux prec emax sx mx ex lx) = negb sx
  ∨ sf_not_negative (binary_round_aux prec emax sx mx ex lx) = true.
Proof.
  unfold binary_round_aux.
  destruct (shr_fexp prec emax mx ex lx) as [mrs' e'].
  destruct (shr_fexp prec emax _ e' loc_Exact) as [mrs'' e''].
  destruct (shr_m mrs''); cbn; auto.
  destruct (_ <=? _)%Z; cbn; destruct sx; auto.
Qed.

Lemma binary_round_aux_positive mx ex lx :
  sf_not_negative (binary_round_aux prec emax false mx ex lx) = true.
Proof. by destruct (binary_round_aux_sign false mx ex lx). Qed.

Lemma SFsqrt_not_negative f : sf_not_negative (SF64sqrt f) = true.
Proof.
  destruct f as [s|[]| |[] m e]; cbn; try done.
  unfold SF64sqrt, SFsqrt.
  destruct (SFsqrt_core_binary prec emax (Z.pos m) e) as [[mz ez] lz].
  apply binary_round_aux_positive.
Qed.

Lemma SFmul_not_negative f g :
  sf_not_negative f = true → sf_not_negative g = true →
  sf_not_negative (SF64mul f g) = true.
Proof.
  destruct f as [s|[]| |[] m e], g as [s'|[]| |[] m' e']; cbn; try done.
  intros _ _. apply binary_round_aux_positive.
Qed.

Lemma not_negative_spec (x : float) :
  sf_not_negative (Prim2SF x) = true → not_negative x = true.
Proof.
  unfold not_negative. rewrite FloatAxioms.ltb_spec.
  change (Prim2SF 0) with (S754_zero false).
  by destruct (Prim2SF x) as [s|[]| |[] m e].
Qed.

Lemma sqrt_not_negative (x : float) :
  sf_not_negative (Prim2SF (PrimFloat.sqrt x)) = true.
Proof. rewrite FloatAxioms.sqrt_spec. apply SFsqrt_not_negative. Qed.

Lemma sqrt_mul_sqrt_not_negative (x y : float) :
  not_negative (PrimFloat.sqrt x * PrimFloat.sqrt y) = true.
Proof.
  apply not_negative_spec. rewrite FloatAxioms.mul_spec.
  apply SFmul_not_negative; apply sqrt_not_negative.
Qed.

(* ================================================================== *)
(** * Further properties of [get_estimator] *)

Lemma squared_returns_labels ln (close : Series) :
  (squared_returns_of ln close).*1 = close.*1.
Proof.
  unfold squared_returns_of, Series_square.
  by rewrite Series_apply_labels, log_returns_labels.
Qed.

Lemma shift_lookup (s : Series) t p :
  s !! t = Some p →
  shift s !! t =
    Some (p.1, match t with
               | 0 => NaN
               | S t' => default NaN (values s !! t')
               end).
Proof.
  intros Hp. pose proof (lookup_lt_Some _ _ _ Hp) as Hlt.
  unfold shift. rewrite lookup_zip_with, list_lookup_fmap, Hp.
  rewrite lookup_take_lt by done. destruct t as [|t']; [done|].
  change ((NaN :: values s) !! S t') with (values s !! t').
  assert (Hlt' : t' < length (values s))
    by (unfold values; rewrite length_fmap; lia).
  destruct (lookup_lt_is_Some_2 (values s) t' Hlt') as [v Hv].
  by rewrite !Hv.
Qed.

(** The log return at a position, from the closes at and before it. *)
Lemma log_returns_lookup ln (close : Series) t p :
  close !! t = Some p →
  log_returns_of ln close !! t =
    Some (p.1, ln (p.2 / match t with
                         | 0 => NaN
                         | S t' => default NaN (values close !! t')
                         end)%float).
Proof.
  intros Hp. unfold log_returns_of, Series_apply, Series_div.
  rewrite list_lookup_fmap, lookup_zip_with, Hp. cbn.
  by rewrite (shift_lookup _ _ _ Hp).
Qed.

Lemma Series_apply_lookup f (s : Series) t :
  Series_apply f s !! t = prod_map id f <$> s !! t.
Proof. unfold Series_apply. apply list_lookup_fmap. Qed.

(** What one call to [get_estimator] returns without cleaning, in terms of
    the variance the scan leaves. *)
Lemma get_estimator_unclean ln df lam tp close :
  getitem df "Close" = Ok close →
  ∃ var,
    ewma_inv lam (squared_returns_of ln close) var
             (length (squared_returns_of ln close))
    ∧ ∀ clean,
        get_estimator ln df lam tp clean =
          ann ← math_sqrt tp;
          let result := Series_scale (Series_apply PrimFloat.sqrt var) ann in
          Ok (if clean then dropna result else result).
Proof.
  intros Hclose.
  destruct (ewma_variance_spec lam (squared_returns_of ln close))
    as (var & Hvar & Hinv).
  exists var. split; [done|]. intros clean. unfold get_estimator.
  rewrite Hclose. cbn. rewrite Hvar. cbn.
  destruct (math_sqrt tp); cbn; [|done]. by destruct clean.
Qed.

Section EstimatorProperties.

Variable ln : float → float.

(** X1: whatever the prices, the decay factor and the flag, no value of the
    series [get_estimator] returns is below zero: each is a square root
    times the square root [math.sqrt] returned. *)
Theorem get_estimator_never_negative df lam tp clean s :
  get_estimator ln df lam tp clean = Ok s →
  Forall (λ p, not_negative p.2 = true) s.
Proof.
  unfold get_estimator. intros H.
  destruct (getitem df "Close") as [close|]; cbn in H; [|done].
  destruct (ewma_variance lam (squared_returns_of ln close)) as [var|];
    cbn in H; [|done].
  unfold math_sqrt in H. destruct (PrimFloat.ltb tp 0); cbn in H; [done|].
  assert (Hall : Forall (λ p : Z * float, not_negative p.2 = true)
            (Series_scale (Series_apply PrimFloat.sqrt var) (PrimFloat.sqrt tp))).
  { unfold Series_scale, Series_apply. rewrite <- list_fmap_compose.
    apply Forall_fmap, Forall_forall. intros [t v] _. cbn.
    apply sqrt_mul_sqrt_not_negative. }
  destruct clean; injection H as <-; [|done].
  apply Forall_forall. intros p Hp. apply list_elem_of_filter in Hp as [_ Hp].
  by apply (proj1 (Forall_forall _ _) Hall).
Qed.

(** X2: without cleaning the result carries one value per price, under the
    labels of the price index; cleaning returns exactly that series with its
    NaN entries removed, in the same order, and removes nothing else. *)
Theorem get_estimator_clean_drops_only_missing df lam tp close s :
  getitem df "Close" = Ok close →
  get_estimator ln df lam tp false = Ok s →
  s.*1 = close.*1
  ∧ get_estimator ln df lam tp true = Ok (dropna s)
  ∧ dropna s `sublist_of` s
  ∧ ∀ p, p ∈ dropna s ↔ p ∈ s ∧ isnan p.2 = false.
Proof.
  intros Hclose Hs.
  destruct (get_estimator_unclean ln df lam tp close Hclose)
    as (var & [Hl _ _ _] & Hres).
  rewrite Hres in Hs. rewrite Hres.
  destruct (math_sqrt tp) as [ann|]; cbn in *; [|done].
  injection Hs as <-. split_and!.
  - unfold Series_scale. by rewrite !Series_apply_labels, Hl,
      squared_returns_labels.
  - done.
  - apply sublist_filter.
  - intros p. unfold dropna. rewrite list_elem_of_filter. tauto.
Qed.

(** X3: when [np.log] maps NaN to NaN, the estimate at the first date is
    always NaN: the first return has no predecessor. So a cleaned result is
    strictly shorter than a price series that is not empty, and never
    carries its first date's estimate. *)
Theorem get_estimator_first_missing df lam tp first close ann :
  ln NaN = NaN →
  getitem df "Close" = Ok (first :: close) →
  math_sqrt tp = Ok ann →
  (∃ rest, get_estimator ln df lam tp false = Ok ((first.1, NaN) :: rest)
           ∧ length rest = length close)
  ∧ (∃ cleaned, get_estimator ln df lam tp true = Ok cleaned
                ∧ length cleaned ≤ length close).
Proof.
  intros Hln Hclose Hann.
  destruct (get_estimator_unclean ln df lam tp _ Hclose)
    as (var & [Hl _ Hh _] & Hres).
  rewrite !Hres, Hann. cbn [mbind result_bind].
  assert (Hsq0 : squared_returns_of ln (first :: close) !! 0
                 = Some (first.1, NaN)).
  { unfold squared_returns_of, Series_square.
    rewrite Series_apply_lookup, (log_returns_lookup ln (first :: close) 0 first eq_refl).
    cbn. by rewrite div_nan_r, Hln. }
  rewrite <- Hh in Hsq0.
  rewrite squared_returns_labels in Hl. apply fmap_fst_length in Hl.
  destruct var as [|v0 var']; [done|]. injection Hsq0 as ->.
  assert (Hlen : length var' = length close) by (cbn in Hl; lia).
  assert (Hhead :
    Series_scale (Series_apply PrimFloat.sqrt ((first.1, NaN) :: var')) ann
    = (first.1, NaN) :: Series_scale (Series_apply PrimFloat.sqrt var') ann).
  { unfold Series_scale, Series_apply. rewrite !fmap_cons.
    f_equal. exact (f_equal (pair first.1) (mul_nan_l ann)). }
  assert (Hrest : length (Series_scale (Series_apply PrimFloat.sqrt var') ann)
                  = length close).
  { unfold Series_scale, Series_apply. by rewrite !length_fmap. }
  cbv zeta. rewrite Hhead. split.
  - by eexists.
  - eexists. split; [reflexivity|]. unfold dropna.
    rewrite filter_cons_False by done.
    etrans; [apply length_filter|]. by rewrite Hrest.
Qed.

(** X4: when [np.log] maps NaN to NaN, the estimate at the second date is the
    annualized square root of the first squared log return, whatever the
    decay factor: the scan seeds itself there and [lambda_param] plays no
    part before the third date. *)
Theorem get_estimator_seed df lam tp c0 c1 close ann s :
  ln NaN = NaN →
  getitem df "Close" = Ok (c0 :: c1 :: close) →
  math_sqrt tp = Ok ann →
  get_estimator ln df lam tp false = Ok s →
  s !! 1 =
    Some (c1.1,
          (PrimFloat.sqrt (ln (c1.2 / c0.2) * ln (c1.2 / c0.2)) * ann)%float).
Proof.
  intros Hln Hclose Hann Hs.
  destruct (get_estimator_unclean ln df lam tp _ Hclose)
    as (var & [Hl Hr Hh Hd] & Hres).
  rewrite Hres, Hann in Hs. cbn in Hs. injection Hs as <-.
  set (cl := c0 :: c1 :: close) in *.
  assert (Hsq0 : squared_returns_of ln cl !! 0 = Some (c0.1, NaN)).
  { unfold squared_returns_of, Series_square.
    rewrite Series_apply_lookup, (log_returns_lookup ln cl 0 c0 eq_refl).
    cbn. by rewrite div_nan_r, Hln. }
  assert (Hsq1 : squared_returns_of ln cl !! 1
                 = Some (c1.1, (ln (c1.2 / c0.2) * ln (c1.2 / c0.2))%float)).
  { unfold squared_returns_of, Series_square.
    by rewrite Series_apply_lookup, (log_returns_lookup ln cl 1 c1 eq_refl). }
  assert (Hlen : 1 < length (squared_returns_of ln cl)).
  { by eapply lookup_lt_Some. }
  assert (Hs0 : values (squared_returns_of ln cl) !! 0 = Some NaN)
    by (by rewrite values_lookup, Hsq0).
  assert (Hs1 : values (squared_returns_of ln cl) !! 1
                = Some (ln (c1.2 / c0.2) * ln (c1.2 / c0.2))%float)
    by (by rewrite values_lookup, Hsq1).
  assert (Hv0 : values var !! 0 = Some NaN)
    by (by rewrite values_lookup, Hh, Hsq0).
  pose proof (Hd 1 NaN NaN _ (le_n _) Hlen Hs0 Hv0 Hs1) as Hslot.
  rewrite values_lookup in Hslot. cbn in Hslot.
  assert (Hv1 : var !! 1
                = Some (c1.1, (ln (c1.2 / c0.2) * ln (c1.2 / c0.2))%float)).
  { assert (Hlab : var.*1 !! 1 = Some c1.1).
    { rewrite Hl, list_lookup_fmap, Hsq1. done. }
    rewrite list_lookup_fmap in Hlab.
    destruct (var !! 1) as [[t v]|]; [|done]. cbn in *. congruence. }
  unfold Series_scale. rewrite !Series_apply_lookup, Hv1. done.
Qed.

End EstimatorProperties.

(* ================================================================== *)
(** * Further properties of the analyzer *)

Lemma not_negative_NaN_scaled : not_negative (NaN * PrimFloat.sqrt 252) = true.
Proof. reflexivity. Qed.

Lemma filter_none {A} (P : A → Prop) `{!∀ x, Decision (P x)} (l : list A) :
  Forall (λ x, ¬ P x) l → filter P l = [].
Proof.
  induction 1 as [|x l Hx _ IH]; [done|]. by rewrite filter_cons_False.
Qed.

Section AnalyzerFurther.

Variable ln : float → float.
Variable fsum : list float → float.
Variable to_datetime : string → option Timestamp.

(** X5: the log returns carry the labels of the closes; at every position
    after the first the value is [ln (close[t] / close[t-1])], and at the
    first it is [ln NaN], the close having no predecessor. *)
Theorem calculate_log_returns_values self close :
  getitem (price_data self) "Close" = Ok close →
  ∃ lr,
    calculate_log_returns ln self = Ok lr
    ∧ lr.*1 = close.*1
    ∧ (∀ first, close !! 0 = Some first → lr !! 0 = Some (first.1, ln NaN))
    ∧ ∀ t prev cur,
        close !! t = Some prev → close !! S t = Some cur →
        lr !! S t = Some (cur.1, ln (cur.2 / prev.2)).
Proof.
  intros Hclose. exists (log_returns_of ln close). split_and!.
  - by apply calculate_log_returns_total.
  - apply log_returns_labels.
  - intros first H0. rewrite (log_returns_lookup ln close 0 first H0).
    by rewrite div_nan_r.
  - intros t prev cur Hprev Hcur.
    rewrite (log_returns_lookup ln close (S t) cur Hcur).
    by rewrite values_lookup, Hprev.
Qed.

Lemma realized_volatility_window_ok self start_date end_date v :
  realized_volatility_window ln fsum self start_date end_date = Ok v →
  ∃ lr, calculate_log_returns ln self = Ok lr.
Proof.
  unfold realized_volatility_window.
  destruct (calculate_log_returns ln self) as [lr|]; [eauto | done].
Qed.

Lemma Series_std_not_negative xs :
  not_negative (Series_std fsum xs * PrimFloat.sqrt 252) = true.
Proof.
  unfold Series_std. cbv zeta. destruct (_ <=? 1).
  - apply not_negative_NaN_scaled.
  - apply sqrt_mul_sqrt_not_negative.
Qed.

Lemma realized_volatility_window_not_negative self start_date end_date v :
  realized_volatility_window ln fsum self start_date end_date = Ok v →
  not_negative v = true.
Proof.
  intros Hv.
  destruct (realized_volatility_window_ok _ _ _ _ Hv) as [lr Hlr].
  rewrite (realized_volatility_window_spec ln fsum _ _ _ _ Hlr) in Hv.
  injection Hv as <-. destruct (_ <? 2); [done|].
  apply Series_std_not_negative.
Qed.

(** A window whose start lies after its end selects nothing. *)
Lemma realized_volatility_window_empty self start_date end_date v :
  (end_date < start_date)%Z →
  realized_volatility_window ln fsum self start_date end_date = Ok v →
  v = NaN.
Proof.
  intros Hlt Hv.
  destruct (realized_volatility_window_ok _ _ _ _ Hv) as [lr Hlr].
  rewrite (realized_volatility_window_spec ln fsum _ _ _ _ Hlr) in Hv.
  rewrite filter_none in Hv; [by injection Hv|].
  apply Forall_forall. intros p _. unfold in_window.
  destruct (Z.leb_spec start_date p.1), (Z.leb_spec p.1 end_date);
    cbn; try done; lia.
Qed.

(** X6: [realized_volatility_window] never returns a number below zero, and
    it returns NaN for every window whose start lies after its end. *)
Theorem realized_volatility_window_range self start_date end_date v :
  realized_volatility_window ln fsum self start_date end_date = Ok v →
  not_negative v = true
  ∧ ((end_date < start_date)%Z → v = NaN).
Proof.
  intros Hv. split.
  - by eapply realized_volatility_window_not_negative.
  - intros Hlt. by eapply realized_volatility_window_empty.
Qed.

(** ** Records and events *)

Lemma analyze_event_record self pre post results event results' :
  analyze_event ln fsum to_datetime self pre post results event = Ok results' →
  ∃ r, results' = results ++ [r]
       ∧ event_record ln fsum to_datetime self pre post event r
       ∧ impact_ok pre post r.
Proof.
  unfold analyze_event, dict_getitem, pd_to_datetime. intros H.
  destruct (assoc "date" event) as [d|] eqn:Hd; cbn in H; [|done].
  destruct (to_datetime d) as [t|] eqn:Ht; cbn in H; [|done].
  destruct (window_start t pre) as [pre_start|] eqn:Hs; cbn in H; [|done].
  destruct (window_end t post) as [post_end|] eqn:He; cbn in H; [|done].
  destruct (realized_volatility_window ln fsum self pre_start t)
    as [v1|] eqn:H1; cbn in H; [|done].
  destruct (realized_volatility_window ln fsum self t post_end)
    as [v2|] eqn:H2; cbn in H; [|done].
  destruct (assoc "name" event) as [nm|] eqn:Hn; cbn in H; [|done].
  injection H as <-. eexists. split; [reflexivity|]. split; [|by split].
  split; cbn; try done.
  - by rewrite Hd.
  - by rewrite Hs.
  - by rewrite He.
Qed.

Lemma for_each_analyze_records self pre post events : ∀ acc results,
  for_each (analyze_event ln fsum to_datetime self pre post) events acc
  = Ok results →
  ∃ new, results = acc ++ new
         ∧ Forall2 (event_record ln fsum to_datetime self pre post) events new
         ∧ Forall (impact_ok pre post) new.
Proof.
  induction events as [|ev events IH]; intros acc results H; cbn in H.
  - injection H as <-. exists []. rewrite app_nil_r. by split_and!.
  - destruct (analyze_event _ _ _ _ _ _ acc ev) as [acc1|] eqn:E; cbn in H;
      [|done].
    destruct (analyze_event_record _ _ _ _ _ _ E) as (r & -> & Hr & Hok).
    destruct (IH _ _ H) as (new & -> & Hrec & Hall).
    exists (r :: new). rewrite <- app_assoc.
    split_and!; [done | by constructor | by constructor].
Qed.

(** Whenever the analysis returns, its rows are the per-event records under
    the positions of their events, reordered by date. *)
Lemma event_impact_analysis_records self events pre post df :
  event_impact_analysis ln fsum to_datetime self events pre post = Ok df →
  ∃ rs,
    Forall2 (event_record ln fsum to_datetime self pre post) events rs
    ∧ Forall (impact_ok pre post) rs
    ∧ if_columns df = impact_columns
    ∧ if_rows df ≡ₚ zip (seq 0 (length rs)) rs
    ∧ Sorted date_le (if_rows df).
Proof.
  unfold event_impact_analysis. intros H.
  destruct (for_each _ events []) as [rs|] eqn:E; cbn in H; [|done].
  destruct (for_each_analyze_records _ _ _ _ _ _ E) as (new & -> & Hrec & Hall).
  cbn in *. unfold sort_values_event_date in H.
  case_decide as Hcol; [|done]. injection H as <-. cbn in *.
  destruct new as [|r new]; [by apply elem_of_nil in Hcol|].
  exists (r :: new). split_and!; try done.
  - apply merge_sort_Permutation.
  - apply (@Sorted_merge_sort _ date_le _ date_le_total).
Qed.

(** X7: the rows of the result are exactly the records of the events, one
    per event, in ascending date order: the row labelled [i] belongs to the
    [i]-th event of the input, carries its parsed date and its name, its
    [type] or ["unknown"] when the event has none, and the volatilities of
    the windows before and after that date. *)
Theorem event_impact_analysis_rows self events pre post df :
  event_impact_analysis ln fsum to_datetime self events pre post = Ok df →
  Sorted date_le (if_rows df)
  ∧ (fst <$> if_rows df) ≡ₚ seq 0 (length events)
  ∧ ∀ i r, (i, r) ∈ if_rows df →
      ∃ event, events !! i = Some event
               ∧ event_record ln fsum to_datetime self pre post event r.
Proof.
  intros Hdf.
  destruct (event_impact_analysis_records _ _ _ _ _ Hdf)
    as (rs & Hrec & _ & _ & Hperm & Hsorted).
  pose proof (Forall2_length _ _ _ Hrec) as Hlen.
  split_and!; [done| |].
  - rewrite Hperm, fst_zip by (rewrite length_seq; lia). by rewrite Hlen.
  - intros i r Hin. rewrite Hperm in Hin.
    apply list_elem_of_lookup in Hin as [j Hj].
    apply lookup_zip_with_Some in Hj as (i' & r' & [= <- <-] & Hi & Hr).
    apply lookup_seq in Hi as [-> Hlt]. cbn.
    destruct (Forall2_lookup_r _ _ _ _ _ Hrec Hr) as (event & Hev & Hmatch).
    by exists event.
Qed.

(** ** The percentage change *)

Lemma impact_ok_change_pct pre post r :
  impact_ok pre post r →
  (PrimFloat.eqb (pre_volatility r) 0 = true →
     volatility_change_pct r = NaN
     ∧ PrimFloat.is_infinity (volatility_change_pct r) = false)
  ∧ (PrimFloat.eqb (pre_volatility r) 0 = false →
     volatility_change_pct r =
       ((post_volatility r - pre_volatility r) / pre_volatility r * 100)%float).
Proof.
  intros [_ _ Hchange Hpct]. unfold float_ne in Hpct.
  split; intros Hzero; rewrite Hzero in Hpct; cbn in Hpct.
  - by rewrite Hpct.
  - by rewrite Hpct, Hchange.
Qed.

(** C6: a pre-window volatility of zero raises nothing and gives a missing
    percentage. Over a frame with a [Close] column, a non-empty list of
    well-formed events and window days within the limits of the date
    arithmetic, the analysis returns a frame, whatever the volatilities
    are. And whenever it returns, every event has its record in the result,
    under the event's position as label: the record's [pre_volatility] and
    [post_volatility] are the realized volatilities of the event's pre- and
    post-window ([event_record]); when that pre-window volatility equals
    zero, the record's [volatility_change_pct] is NaN, not an infinity;
    when it is anything else, the percentage is
    [(post - pre) / pre * 100]. The result has no other rows: it has one
    row per event, and every row obeys the same rule. *)
Theorem event_impact_analysis_change_pct self events pre post :
  (∀ close,
     getitem (price_data self) "Close" = Ok close →
     events ≠ [] →
     Forall (λ ev, well_formed_event to_datetime ev = true) events →
     Forall (λ ev, windows_ok to_datetime pre post ev = true) events →
     ∃ df,
       event_impact_analysis ln fsum to_datetime self events pre post = Ok df)
  ∧ ∀ df,
      event_impact_analysis ln fsum to_datetime self events pre post = Ok df →
      (∀ i event, events !! i = Some event →
         ∃ r, (i, r) ∈ if_rows df
           ∧ event_record ln fsum to_datetime self pre post event r
           ∧ (PrimFloat.eqb (pre_volatility r) 0 = true →
                volatility_change_pct r = NaN
                ∧ PrimFloat.is_infinity (volatility_change_pct r) = false)
           ∧ (PrimFloat.eqb (pre_volatility r) 0 = false →
                volatility_change_pct r =
                  ((post_volatility r - pre_volatility r)
                   / pre_volatility r * 100)%float))
      ∧ length (if_rows df) = length events
      ∧ Forall (λ row,
          (PrimFloat.eqb (pre_volatility row.2) 0 = true →
             volatility_change_pct row.2 = NaN
             ∧ PrimFloat.is_infinity (volatility_change_pct row.2) = false)
          ∧ (PrimFloat.eqb (pre_volatility row.2) 0 = false →
             volatility_change_pct row.2 =
               ((post_volatility row.2 - pre_volatility row.2)
                / pre_volatility row.2 * 100)%float))
          (if_rows df).
Proof.
  split.
  { intros close Hclose Hne Hwf Hrange.
    by eapply event_impact_analysis_total. }
  intros df Hdf.
  destruct (event_impact_analysis_records _ _ _ _ _ Hdf)
    as (rs & Hrec & Hok & _ & Hperm & _).
  pose proof (Forall2_length _ _ _ Hrec) as Hlen.
  split_and!.
  - intros i event Hev.
    destruct (Forall2_lookup_l _ _ _ _ _ Hrec Hev) as (r & Hr & Hmatch).
    exists r. split; [|split; [done|]].
    + rewrite Hperm. apply list_elem_of_lookup. exists i.
      apply lookup_zip_with_Some. exists i, r. split_and!; [done| |done].
      apply lookup_seq. split; [done|]. by eapply lookup_lt_Some.
    + eapply impact_ok_change_pct, (proj1 (Forall_forall _ _) Hok).
      by eapply list_elem_of_lookup_2.
  - rewrite Hperm, length_zip, length_seq. lia.
  - rewrite Hperm. apply Forall_forall. intros [i r] Hin.
    apply elem_of_zip_r in Hin. cbn.
    by eapply impact_ok_change_pct, (proj1 (Forall_forall _ _) Hok).
Qed.

(** ** Failures *)

Lemma analyze_event_error self pre post acc event close :
  getitem (price_data self) "Close" = Ok close →
  well_formed_event to_datetime event = false →
  windows_ok to_datetime pre post event = true →
  analyze_event ln fsum to_datetime self pre post acc event
  = Err (event_error to_datetime event).
Proof.
  intros Hclose Hwf Hrange.
  unfold well_formed_event in Hwf. unfold windows_ok in Hrange.
  unfold analyze_event, event_error, dict_getitem, pd_to_datetime.
  destruct (assoc "date" event) as [d|]; [|done]. cbn in *.
  destruct (to_datetime d) as [t|] eqn:Ht; [|done]. cbn.
  apply window_in_range_ends in Hrange as [-> ->]. cbn.
  destruct (realized_volatility_window_total ln fsum self close
              (t - pre * ns_per_day) t Hclose) as [v1 ->].
  destruct (realized_volatility_window_total ln fsum self close
              t (t + post * ns_per_day) Hclose) as [v2 ->].
  cbn. destruct (assoc "name" event); [|done].
  apply bool_decide_eq_false in Hwf. destruct Hwf. by eexists.
Qed.

(** X8: one malformed event fails the whole analysis. When the events before
    it are well formed and the window days are within the limits of the date
    arithmetic for them and for the malformed event ([windows_ok]), the call
    raises the exception of the first malformed event ([KeyError] for a
    missing [date], [ValueError] for a date that does not parse, [KeyError]
    for a missing [name]) whatever follows it, and returns no record at
    all. *)
Theorem event_impact_analysis_first_failure self good bad rest pre post close :
  getitem (price_data self) "Close" = Ok close →
  Forall (λ ev, well_formed_event to_datetime ev = true) good →
  Forall (λ ev, windows_ok to_datetime pre post ev = true) good →
  well_formed_event to_datetime bad = false →
  windows_ok to_datetime pre post bad = true →
  event_impact_analysis ln fsum to_datetime self (good ++ bad :: rest) pre post
  = Err (event_error to_datetime bad).
Proof.
  intros Hclose Hgood Hrange Hbad Hbad'. unfold event_impact_analysis.
  assert (Hloop : ∀ acc,
            for_each (analyze_event ln fsum to_datetime self pre post)
                     (good ++ bad :: rest) acc
            = Err (event_error to_datetime bad)).
  { induction Hgood as [|ev good Hev _ IH]; intros acc; cbn.
    - by rewrite (analyze_event_error self pre post acc bad close).
    - inversion Hrange as [|? ? Hev' Hrest]; subst.
      destruct (analyze_event_total ln fsum to_datetime self pre post acc ev
                  close Hclose Hev Hev') as [r ->]. cbn. by apply IH. }
  by rewrite Hloop.
Qed.

(** X9: without a [Close] column every window raises [KeyError], the short
    and the empty ones too, and so does the analysis of any event list
    whose first event has a date that parses, for window days within the
    limits of the date arithmetic at that date. *)
Theorem analyzer_requires_close self :
  assoc "Close" (df_columns (price_data self)) = None →
  calculate_log_returns ln self = Err (KeyError "Close")
  ∧ (∀ start_date end_date,
       realized_volatility_window ln fsum self start_date end_date
       = Err (KeyError "Close"))
  ∧ ∀ event rest pre post t,
      assoc "date" event ≫= to_datetime = Some t →
      window_in_range pre post t = true →
      event_impact_analysis ln fsum to_datetime self (event :: rest) pre post
      = Err (KeyError "Close").
Proof.
  intros Hnone.
  assert (Hlr : calculate_log_returns ln self = Err (KeyError "Close"))
    by (unfold calculate_log_returns, getitem; by rewrite Hnone).
  assert (Hw : ∀ s e, realized_volatility_window ln fsum self s e
                      = Err (KeyError "Close"))
    by (intros; unfold realized_volatility_window; by rewrite Hlr).
  split_and!; try done.
  intros event rest pre post t Ht Hrange.
  assert (Hev : analyze_event ln fsum to_datetime self pre post [] event
                = Err (KeyError "Close")).
  { unfold analyze_event, dict_getitem, pd_to_datetime.
    destruct (assoc "date" event) as [d|]; [|done]. cbn in *.
    rewrite Ht. cbn.
    apply window_in_range_ends in Hrange as [-> ->]. cbn.
    by rewrite (Hw (t - pre * ns_per_day)%Z t). }
  unfold event_impact_analysis. cbn [for_each]. by rewrite Hev.
Qed.

Lemma event_record_negative_pre self pre post event r :
  (pre < 0)%Z →
  event_record ln fsum to_datetime self pre post event r →
  pre_volatility r = NaN.
Proof.
  intros Hlt [_ _ _ Hpre _].
  destruct (window_start (event_date r) pre) as [s|] eqn:Hs; [|done].
  cbn in Hpre. apply window_start_inv in Hs as ->.
  eapply realized_volatility_window_empty; [|exact Hpre].
  unfold ns_per_day. lia.
Qed.

Lemma event_record_negative_post self pre post event r :
  (post < 0)%Z →
  event_record ln fsum to_datetime self pre post event r →
  post_volatility r = NaN.
Proof.
  intros Hlt [_ _ _ _ Hpost].
  destruct (window_end (event_date r) post) as [e|] eqn:He; [|done].
  cbn in Hpost. apply window_end_inv in He as ->.
  eapply realized_volatility_window_empty; [|exact Hpost].
  unfold ns_per_day. lia.
Qed.

(** X10: a negative number of window days is accepted and selects nothing.
    With a negative [pre_window_days] or [post_window_days] within the
    limits of the date arithmetic, a frame with a [Close] column and a
    non-empty list of well-formed events give a frame with one record per
    event; and whenever the call returns a frame, the window's start lies
    after its end: with a negative [pre_window_days] every record has NaN
    as [pre_volatility], with a negative [post_window_days] NaN as
    [post_volatility], and in both cases NaN as [volatility_change] and
    [volatility_change_pct]. *)
Theorem event_impact_analysis_negative_window self events pre post :
  (pre < 0 ∨ post < 0)%Z →
  (∀ close,
     getitem (price_data self) "Close" = Ok close →
     events ≠ [] →
     Forall (λ ev, well_formed_event to_datetime ev = true) events →
     Forall (λ ev, windows_ok to_datetime pre post ev = true) events →
     ∃ df,
       event_impact_analysis ln fsum to_datetime self events pre post = Ok df
       ∧ length (if_rows df) = length events)
  ∧ ∀ df,
      event_impact_analysis ln fsum to_datetime self events pre post = Ok df →
      Forall (λ row,
        ((pre < 0)%Z → pre_volatility row.2 = NaN)
        ∧ ((post < 0)%Z → post_volatility row.2 = NaN)
        ∧ volatility_change row.2 = NaN
        ∧ volatility_change_pct row.2 = NaN) (if_rows df).
Proof.
  intros Hneg. split.
  { intros close Hclose Hne Hwf Hrange.
    destruct (event_impact_analysis_sorted ln fsum to_datetime self events
                pre post close) as (df & Hdf & _ & Hlen); try done.
    by exists df. }
  intros df Hdf.
  destruct (event_impact_analysis_records _ _ _ _ _ Hdf)
    as (rs & Hrec & Hok & _ & Hperm & _).
  rewrite Hperm. apply Forall_forall. intros [i r] Hin.
  apply elem_of_zip_r in Hin. cbn.
  pose proof (proj1 (Forall_forall _ _) Hok r Hin) as [_ _ Hchange Hpct].
  apply list_elem_of_lookup in Hin as [j Hj].
  destruct (Forall2_lookup_r _ _ _ _ _ Hrec Hj) as (ev & _ & Hev).
  assert (Hpre' : (pre < 0)%Z → pre_volatility r = NaN)
    by (intros Hlt; by eapply event_record_negative_pre).
  assert (Hpost' : (post < 0)%Z → post_volatility r = NaN)
    by (intros Hlt; by eapply event_record_negative_post).
  split_and!; try done.
  - rewrite Hchange. destruct Hneg as [Hlt|Hlt].
    + rewrite (Hpre' Hlt). apply sub_nan_r.
    + rewrite (Hpost' Hlt). apply sub_nan_l.
  - rewrite Hpct, Hchange. destruct Hneg as [Hlt|Hlt].
    + rewrite (Hpre' Hlt), sub_nan_r. reflexivity.
    + rewrite (Hpost' Hlt), sub_nan_l, div_nan_l.
      destruct (float_ne _ _); [apply mul_nan_l | done].
Qed.

End AnalyzerFurther.

(* ================================================================== *)
(** * Further properties of the summary *)

Lemma length_filter_or {A} (P Q : A → Prop)
    `{!∀ x, Decision (P x)} `{!∀ x, Decision (Q x)} (l : list A) :
  (∀ x, P x → Q x → False) →
  length (filter (λ x, P x ∨ Q x) l)
  = length (filter P l) + length (filter Q l).
Proof.
  intros Hdisj. induction l as [|x l IH]; [done|].
  rewrite !filter_cons.
  destruct (decide (P x)) as [HP|HP], (decide (Q x)) as [HQ|HQ].
  - by destruct (Hdisj x).
  - rewrite decide_True by tauto. cbn. by rewrite IH.
  - rewrite decide_True by tauto. cbn. rewrite IH. lia.
  - rewrite decide_False by tauto. done.
Qed.

Lemma filter_all {A} (P : A → Prop) `{!∀ x, Decision (P x)} (l : list A) :
  Forall P l → filter P l = l.
Proof.
  induction 1 as [|x l Hx _ IH]; [done|].
  by rewrite filter_cons_True, IH.
Qed.

(** The groups of distinct keys split the list: their sizes add up to the
    number of elements whose key is among them. *)
Lemma group_sizes {A} (f : A → string) (l : list A) (tys : list string) :
  NoDup tys →
  sum_list ((λ ty, length (filter (λ x, f x = ty) l)) <$> tys)
  = length (filter (λ x, f x ∈ tys) l).
Proof.
  induction 1 as [|ty tys Hty Hnd IH]; cbn.
  - rewrite filter_none; [done|]. apply Forall_forall. intros x _.
    apply not_elem_of_nil.
  - rewrite IH, <- length_filter_or by (intros x <-; done).
    f_equal. apply list_filter_iff. intros x. rewrite elem_of_cons. tauto.
Qed.

Section SummaryFurther.

Variable fsum : list float → float.

(** The summary dict, entry by entry. *)
Lemma event_summary_statistics_eq self df :
  impact_columns ⊆ if_columns df →
  event_summary_statistics fsum self df
  = Ok ((λ ty, (ty, summary_of fsum df ty))
        <$> unique ((λ row, event_type row.2) <$> if_rows df)).
Proof.
  intros Hcols. unfold event_summary_statistics, impact_column.
  rewrite decide_True; cycle 1.
  { apply Hcols. unfold impact_columns. rewrite !elem_of_cons. tauto. }
  cbn. rewrite for_each_summarize; try done.
  - apply unique_spec.
  - intros ty _. apply not_elem_of_nil.
Qed.

Lemma summary_counts df (tys : list string) :
  count <$> ((λ ty, (ty, summary_of fsum df ty)) <$> tys).*2
  = (λ ty, length (filter (λ row, event_type row.2 = ty) (if_rows df)))
    <$> tys.
Proof.
  rewrite <- !list_fmap_compose. apply list_fmap_ext. intros _ ty _. cbn.
  unfold group_of. by rewrite length_fmap.
Qed.

(** X11: the groups of the summary split the frame. The keys are the event
    types in the order in which they first appear in the frame, and the
    [count] fields add up to the number of records: every record is counted
    in exactly one group. *)
Theorem event_summary_statistics_partition self df :
  impact_columns ⊆ if_columns df →
  ∃ summary,
    event_summary_statistics fsum self df = Ok summary
    ∧ summary.*1 = unique ((λ row, event_type row.2) <$> if_rows df)
    ∧ sum_list (count <$> summary.*2) = length (if_rows df).
Proof.
  intros Hcols. eexists. split; [by apply event_summary_statistics_eq|].
  set (types := (λ row : nat * ImpactRecord, event_type row.2) <$> if_rows df).
  destruct (unique_spec types) as [Hnd Hin]. split.
  - rewrite <- list_fmap_compose. apply list_fmap_id.
  - rewrite summary_counts.
    rewrite (group_sizes (λ row : nat * ImpactRecord, event_type row.2)
               (if_rows df) (unique types) Hnd).
    f_equal. apply filter_all, Forall_forall. intros row Hrow. cbn.
    apply Hin. unfold types. apply list_elem_of_fmap. by exists row.
Qed.

(** X12: the summary of what [event_impact_analysis] returned never fails:
    the frame has every column the summary reads. Its [count] fields add up
    to the number of events, and its keys are exactly the types of the
    events, ["unknown"] standing for an event without a type. *)
Theorem summary_of_analysis (ln : float → float)
    (to_datetime : string → option Timestamp)
    self events pre post df :
  event_impact_analysis ln fsum to_datetime self events pre post = Ok df →
  ∃ summary,
    event_summary_statistics fsum self df = Ok summary
    ∧ sum_list (count <$> summary.*2) = length events
    ∧ ∀ ty, ty ∈ summary.*1 ↔
            ∃ event, event ∈ events ∧ dict_get event "type" "unknown" = ty.
Proof.
  intros Hdf.
  destruct (event_impact_analysis_records _ _ _ _ _ _ _ _ Hdf)
    as (rs & Hrec & _ & Hcols & Hperm & _).
  pose proof (Forall2_length _ _ _ Hrec) as Hlen.
  assert (Hsub : impact_columns ⊆ if_columns df) by (by rewrite Hcols).
  exists ((λ ty, (ty, summary_of fsum df ty))
          <$> unique ((λ row, event_type row.2) <$> if_rows df)).
  set (types := (λ row : nat * ImpactRecord, event_type row.2) <$> if_rows df).
  destruct (unique_spec types) as [Hnd Hin].
  split_and!.
  - by apply event_summary_statistics_eq.
  - rewrite summary_counts.
    rewrite (group_sizes (λ row : nat * ImpactRecord, event_type row.2)
               (if_rows df) (unique types) Hnd).
    rewrite filter_all.
    + rewrite Hperm, length_zip, length_seq. lia.
    + apply Forall_forall. intros row Hrow. cbn.
      apply Hin. unfold types. apply list_elem_of_fmap. by exists row.
  - intros ty. rewrite <- list_fmap_compose, list_fmap_id, Hin.
    unfold types. rewrite list_elem_of_fmap. split.
    + intros ([i r] & -> & Hrow). rewrite Hperm in Hrow.
      apply elem_of_zip_r in Hrow. cbn in *.
      apply list_elem_of_lookup in Hrow as [j Hj].
      destruct (Forall2_lookup_r _ _ _ _ _ Hrec Hj) as (ev & Hev & [_ _ Hty _ _]).
      exists ev. split; [by eapply list_elem_of_lookup_2 | done].
    + intros (ev & Hev & <-).
      apply list_elem_of_lookup in Hev as [j Hj].
      destruct (Forall2_lookup_l _ _ _ _ _ Hrec Hj) as (r & Hr & [_ _ Hty _ _]).
      exists (j, r). split; [done|]. rewrite Hperm.
      apply list_elem_of_lookup. exists j.
      apply lookup_zip_with_Some. exists j, r. split_and!; [done| |done].
      apply lookup_seq. split; [done|]. by eapply lookup_lt_Some.
Qed.

(** X13: missing changes count as no increase. A group whose
    [volatility_change] values are all NaN reports a frequency of 0, not a
    missing one, while its mean change is NaN: the frequency divides by all
    records of the group, the mean by those that are not missing. *)
Theorem event_summary_statistics_all_missing self df summary ty entry :
  impact_columns ⊆ if_columns df →
  event_summary_statistics fsum self df = Ok summary →
  (ty, entry) ∈ summary →
  Forall (λ r, volatility_change r = NaN) (group_of df ty) →
  avg_vol_change entry = NaN
  ∧ ∃ q, vol_increase_frequency entry = Some q ∧ (q == 0)%Q.
Proof.
  intros Hcols Hsum Hentry Hall.
  rewrite (event_summary_statistics_eq self df Hcols) in Hsum.
  injection Hsum as <-.
  apply list_elem_of_fmap in Hentry as (ty' & [= -> ->] & Hty').
  apply unique_spec, list_elem_of_fmap in Hty' as (row & Hrow & Hmem).
  assert (Hgroup : row.2 ∈ group_of df ty').
  { unfold group_of. apply list_elem_of_fmap. exists row. split; [done|].
    by apply list_elem_of_filter. }
  assert (Hnan : Forall (λ x, x = NaN) (volatility_change <$> group_of df ty'))
    by (by apply Forall_fmap).
  cbn. split.
  - unfold Series_mean. rewrite notna_all_missing; [done|].
    eapply Forall_impl; [exact Hnan|]. by intros x ->.
  - assert (Hzero : count_positive (volatility_change <$> group_of df ty') = 0).
    { unfold count_positive. rewrite filter_none; [done|].
      eapply Forall_impl; [exact Hnan|]. by intros x ->. }
    rewrite Hzero.
    destruct (group_of df ty') as [|r g]; [by apply elem_of_nil in Hgroup|].
    eexists. split; [reflexivity|]. done.
Qed.

End SummaryFurther.

(* ================================================================== *)
(** * The further properties at concrete inputs *)

Lemma get_estimator_never_negative_witness :
  ∃ s, get_estimator log_model sample_prices 0.94 252 true = Ok s
       ∧ length s = 10
       ∧ Forall (λ p, not_negative p.2 = true) s.
Proof.
  eexists. split; [vm_compute; reflexivity|]. split; [reflexivity|].
  apply (get_estimator_never_negative log_model sample_prices 0.94 252 true).
  vm_compute. reflexivity.
Defined.

Lemma get_estimator_clean_drops_only_missing_witness :
  ∃ s, get_estimator log_model flat_prices 0.94 252 false = Ok s
       ∧ s.*1 = flat_close.*1
       ∧ get_estimator log_model flat_prices 0.94 252 true = Ok (dropna s)
       ∧ dropna s `sublist_of` s.
Proof.
  eexists. split; [vm_compute; reflexivity|].
  destruct (get_estimator_clean_drops_only_missing log_model flat_prices
              0.94 252 flat_close (zip three_days [nan; 0; 0]%float))
    as (H1 & H2 & H3 & _); [reflexivity | vm_compute; reflexivity |].
  by split_and!.
Defined.

Lemma get_estimator_first_missing_witness :
  log_model NaN = NaN
  ∧ (∃ rest,
       get_estimator log_model flat_prices 0.94 252 false
       = Ok ((0%Z, NaN) :: rest) ∧ length rest = 2)
  ∧ ∃ cleaned,
      get_estimator log_model flat_prices 0.94 252 true = Ok cleaned
      ∧ length cleaned ≤ 2.
Proof.
  split; [reflexivity|].
  apply (get_estimator_first_missing log_model flat_prices 0.94 252
           (0%Z, 100%float) (drop 1 flat_close) (PrimFloat.sqrt 252));
    reflexivity.
Defined.

Lemma get_estimator_seed_witness :
  log_model NaN = NaN
  ∧ ∃ s, get_estimator log_model sample_prices 0.5 252 false = Ok s
         ∧ s !! 1 = Some (1704758400000000000%Z, 0%float).
Proof.
  split; [reflexivity|].
  eexists. split; [vm_compute; reflexivity|].
  etrans.
  - eapply (get_estimator_seed log_model sample_prices 0.5 252);
      [reflexivity | reflexivity | reflexivity | vm_compute; reflexivity].
  - vm_compute. reflexivity.
Defined.

Lemma calculate_log_returns_values_witness :
  ∃ close lr,
    getitem (price_data sample_analyzer) "Close" = Ok close
    ∧ calculate_log_returns log_model sample_analyzer = Ok lr
    ∧ lr.*1 = close.*1
    ∧ lr !! 0 = Some (1704672000000000000%Z, NaN).
Proof.
  eexists. 
  destruct (calculate_log_returns_values log_model sample_analyzer _ eq_refl)
    as (lr & Hlr & Hlab & Hfirst & _).
  exists lr. split_and!; [reflexivity | done | done |].
  by rewrite (Hfirst _ eq_refl).
Defined.

Lemma realized_volatility_window_range_witness :
  ∃ v,
    realized_volatility_window log_model sum_left sample_analyzer
      1705276800000000000 1705881600000000000 = Ok v
    ∧ not_negative v = true
    ∧ realized_volatility_window log_model sum_left sample_analyzer
        1705881600000000000 1705276800000000000 = Ok NaN.
Proof.
  eexists. split; [vm_compute; reflexivity|].
  split; [|vm_compute; reflexivity].
  apply (proj1 (realized_volatility_window_range log_model sum_left
                  sample_analyzer 1705276800000000000 1705881600000000000
                  _ ltac:(vm_compute; reflexivity))).
Defined.

(** Three events, two with a flat pre-window and one with a moving one: the
    first two records have a pre-window volatility of 0 and a missing
    percentage, the third has neither. *)
Lemma event_impact_analysis_change_pct_witness :
  Forall (λ ev, well_formed_event parse_iso_date ev = true) mixed_events
  ∧ Forall (λ ev, windows_ok parse_iso_date 7 7 ev = true) mixed_events
  ∧ ∃ df,
      event_impact_analysis log_model sum_left parse_iso_date sample_analyzer
        mixed_events 7 7 = Ok df
      ∧ fst <$> if_rows df = [1; 0; 2]
      ∧ (λ row, PrimFloat.eqb (pre_volatility row.2) 0) <$> if_rows df
        = [true; true; false]
      ∧ (λ row, isnan (volatility_change_pct row.2)) <$> if_rows df
        = [true; true; false]
      ∧ (∀ i event, mixed_events !! i = Some event →
           ∃ r, (i, r) ∈ if_rows df
             ∧ event_record log_model sum_left parse_iso_date sample_analyzer
                 7 7 event r
             ∧ (PrimFloat.eqb (pre_volatility r) 0 = true →
                  volatility_change_pct r = NaN
                  ∧ PrimFloat.is_infinity (volatility_change_pct r) = false)
             ∧ (PrimFloat.eqb (pre_volatility r) 0 = false →
                  volatility_change_pct r =
                    ((post_volatility r - pre_volatility r)
                     / pre_volatility r * 100)%float))
      ∧ length (if_rows df) = length mixed_events.
Proof.
  split; [repeat constructor|]. split; [repeat constructor|].
  destruct (event_impact_analysis_change_pct log_model sum_left parse_iso_date
              sample_analyzer mixed_events 7 7) as [Hreturns Hrows].
  destruct (Hreturns _ eq_refl) as [df Hdf];
    [discriminate | repeat constructor | repeat constructor |].
  exists df. split; [exact Hdf|].
  destruct (Hrows df Hdf) as (Hevents & Hlen & _).
  split_and!; [| | | exact Hevents | exact Hlen];
    vm_compute in Hdf; by injection Hdf as <-.
Defined.

Lemma event_impact_analysis_rows_witness :
  ∃ df,
    event_impact_analysis log_model sum_left parse_iso_date sample_analyzer
      sample_events 7 7 = Ok df
    ∧ Sorted date_le (if_rows df)
    ∧ fst <$> if_rows df = [1; 0]
    ∧ (fst <$> if_rows df) ≡ₚ seq 0 (length sample_events).
Proof.
  assert (∃ df, event_impact_analysis log_model sum_left parse_iso_date
                  sample_analyzer sample_events 7 7 = Ok df) as [df Hdf]
    by (eexists; vm_compute; reflexivity).
  exists df. split; [exact Hdf|].
  destruct (event_impact_analysis_rows log_model sum_left parse_iso_date
              sample_analyzer sample_events 7 7 df Hdf) as (H1 & H2 & _).
  split_and!; [exact H1 | | exact H2].
  vm_compute in Hdf. by injection Hdf as <-.
Defined.

(** An event without a date, one with a date that is no date and one
    without a name, each after the two sample events. *)
Lemma event_impact_analysis_first_failure_witness :
  well_formed_event parse_iso_date undated_event = false
  ∧ well_formed_event parse_iso_date misdated_event = false
  ∧ well_formed_event parse_iso_date unnamed_event = false
  ∧ Forall (λ ev, windows_ok parse_iso_date 7 7 ev = true)
           (sample_events ++ [undated_event; misdated_event; unnamed_event])
  ∧ event_impact_analysis log_model sum_left parse_iso_date sample_analyzer
      (sample_events ++ undated_event :: sample_events) 7 7
    = Err (KeyError "date")
  ∧ event_impact_analysis log_model sum_left parse_iso_date sample_analyzer
      (sample_events ++ misdated_event :: sample_events) 7 7
    = Err (ValueError "Unknown datetime string format")
  ∧ event_impact_analysis log_model sum_left parse_iso_date sample_analyzer
      (sample_events ++ unnamed_event :: sample_events) 7 7
    = Err (KeyError "name").
Proof.
  split; [reflexivity|]. split; [reflexivity|]. split; [reflexivity|].
  split; [repeat constructor|]. split_and!.
  - eapply (event_impact_analysis_first_failure log_model sum_left
              parse_iso_date sample_analyzer sample_events undated_event);
      [reflexivity | repeat constructor | repeat constructor
       | reflexivity | reflexivity].
  - eapply (event_impact_analysis_first_failure log_model sum_left
              parse_iso_date sample_analyzer sample_events misdated_event);
      [reflexivity | repeat constructor | repeat constructor
       | reflexivity | reflexivity].
  - eapply (event_impact_analysis_first_failure log_model sum_left
              parse_iso_date sample_analyzer sample_events unnamed_event);
      [reflexivity | repeat constructor | repeat constructor
       | reflexivity | reflexivity].
Defined.

Lemma analyzer_requires_close_witness :
  assoc "Close" (df_columns (price_data open_only_analyzer)) = None
  ∧ window_in_range 7 7 1705276800000000000 = true
  ∧ realized_volatility_window log_model sum_left open_only_analyzer 10 0
    = Err (KeyError "Close")
  ∧ event_impact_analysis log_model sum_left parse_iso_date open_only_analyzer
      sample_events 7 7 = Err (KeyError "Close").
Proof.
  split; [reflexivity|]. split; [reflexivity|].
  destruct (analyzer_requires_close log_model sum_left parse_iso_date
              open_only_analyzer eq_refl) as (_ & Hw & Hev).
  split; [apply Hw|].
  apply (Hev _ _ 7%Z 7%Z 1705276800000000000%Z); reflexivity.
Defined.

(** Three days before the event as the length of the window before it,
    given as [-3]. *)
Lemma event_impact_analysis_negative_window_witness :
  (-3 < 0 ∨ 7 < 0)%Z
  ∧ Forall (λ ev, windows_ok parse_iso_date (-3) 7 ev = true) sample_events
  ∧ ∃ df,
      event_impact_analysis log_model sum_left parse_iso_date sample_analyzer
        sample_events (-3) 7 = Ok df
      ∧ length (if_rows df) = length sample_events
      ∧ Forall (λ row,
          ((-3 < 0)%Z → pre_volatility row.2 = NaN)
          ∧ ((7 < 0)%Z → post_volatility row.2 = NaN)
          ∧ volatility_change row.2 = NaN
          ∧ volatility_change_pct row.2 = NaN) (if_rows df).
Proof.
  split; [left; reflexivity|]. split; [repeat constructor|].
  destruct (event_impact_analysis_negative_window log_model sum_left
              parse_iso_date sample_analyzer sample_events (-3) 7
              (or_introl eq_refl)) as [Haccepted Hmissing].
  destruct (Haccepted _ eq_refl) as (df & Hdf & Hlen);
    [discriminate | repeat constructor | repeat constructor |].
  exists df. split_and!; [exact Hdf | exact Hlen | exact (Hmissing df Hdf)].
Defined.

Lemma event_summary_statistics_partition_witness :
  impact_columns ⊆ if_columns sample_impacts
  ∧ ∃ summary,
      event_summary_statistics sum_left sample_analyzer sample_impacts
      = Ok summary
      ∧ summary.*1 = ["unknown"; "inflation"]
      ∧ count <$> summary.*2 = [1; 2]
      ∧ sum_list (count <$> summary.*2) = length (if_rows sample_impacts).
Proof.
  split; [done|].
  destruct (event_summary_statistics_partition sum_left sample_analyzer
              sample_impacts) as (summary & Hsum & Hkeys & Htotal); [done|].
  exists summary. split_and!; [done| | |done].
  - by rewrite Hkeys.
  - vm_compute in Hsum. by injection Hsum as <-.
Defined.

Lemma summary_of_analysis_witness :
  ∃ df summary,
    event_impact_analysis log_model sum_left parse_iso_date sample_analyzer
      sample_events 7 7 = Ok df
    ∧ event_summary_statistics sum_left sample_analyzer df = Ok summary
    ∧ summary.*1 = ["unknown"; "inflation"]
    ∧ sum_list (count <$> summary.*2) = length sample_events.
Proof.
  assert (∃ df, event_impact_analysis log_model sum_left parse_iso_date
                  sample_analyzer sample_events 7 7 = Ok df) as [df Hdf]
    by (eexists; vm_compute; reflexivity).
  exists df.
  destruct (summary_of_analysis sum_left log_model parse_iso_date
              sample_analyzer sample_events 7 7 df Hdf)
    as (summary & Hsum & Htotal & _).
  exists summary. split_and!; [exact Hdf | exact Hsum | | exact Htotal].
  vm_compute in Hdf. injection Hdf as <-.
  vm_compute in Hsum. by injection Hsum as <-.
Defined.

Lemma event_summary_statistics_all_missing_witness :
  ∃ summary entry,
    event_summary_statistics sum_left sample_analyzer sample_impacts
    = Ok summary
    ∧ ("unknown", entry) ∈ summary
    ∧ Forall (λ r, volatility_change r = NaN)
             (group_of sample_impacts "unknown")
    ∧ avg_vol_change entry = NaN
    ∧ ∃ q, vol_increase_frequency entry = Some q ∧ (q == 0)%Q.
Proof.
  assert (∃ summary, event_summary_statistics sum_left sample_analyzer
                       sample_impacts = Ok summary) as [summary Hsum]
    by (eexists; vm_compute; reflexivity).
  pose proof Hsum as Hval. vm_compute in Hval. injection Hval as <-.
  eexists. eexists. split; [exact Hsum|].
  split; [apply list_elem_of_here|].
  split; [repeat constructor|].
  apply (event_summary_statistics_all_missing sum_left sample_analyzer
           sample_impacts _ "unknown" _ ltac:(done) Hsum);
    [apply list_elem_of_here | repeat constructor].
Defined.
